(** * Vault secrets webhook: container registry lookup

    A shallow embedding of [cmd/vault-secrets-webhook/registry/registry.go]
    and the properties of its image-reference handling, pull-secret loading
    and error reporting.

    Go strings are byte sequences and are modelled by [string] (a list of
    8-bit [ascii] characters).  A Go [error] is modelled by its message, the
    [nil] error by [None].  A Go slice of strings is an [option (list string)],
    [None] being the [nil] slice.  The [*corev1.Container] and
    [*corev1.PodSpec] arguments and the [*kubernetes.Clientset] are taken
    to be non-nil: a nil one makes the first use of it panic with a nil
    dereference, which is not modelled.  The calls to the logger are left
    out: they return nothing and decide nothing. *)

From Stdlib Require Import String Ascii List Bool Arith.
Import ListNotations.
Open Scope list_scope.
Open Scope string_scope.

Set Implicit Arguments.

(** ** The parts of Go's [strings] package the code calls *)

Module strings.

(** [strings.HasPrefix(s, prefix)]. *)
Definition HasPrefix (s prefix : string) : bool := String.prefix prefix s.

(** [strings.Index(s, substr)]: position of the first occurrence, Go's [-1]
    being [None]. *)
Fixpoint Index (s substr : string) : option nat :=
  if String.prefix substr s then Some 0
  else match s with
       | EmptyString => None
       | String _ s' => option_map S (Index s' substr)
       end.

(** The slices [s[:m]] and [s[m:]]. *)
Definition slice_to (s : string) (m : nat) : string := substring 0 m s.
Definition slice_from (s : string) (m : nat) : string :=
  substring m (String.length s - m) s.

(** [strings.SplitN(s, sep, n)] for a non-empty separator and [n >= 0]:
    at most [n] pieces, the last one being the unsplit remainder. *)
Fixpoint SplitN (s sep : string) (n : nat) : list string :=
  match n with
  | 0 => []
  | S n' =>
      match n' with
      | 0 => [s]
      | S _ =>
          match Index s sep with
          | None => [s]
          | Some m => slice_to s m :: SplitN (slice_from s (m + String.length sep)) sep n'
          end
      end
  end.

(** [strings.Count(s, substr)] for a non-empty [substr]: the number of
    non-overlapping occurrences.  [skip] is the number of bytes still
    covered by the occurrence found last. *)
Fixpoint countFrom (s substr : string) (skip : nat) : nat :=
  match s with
  | EmptyString => 0
  | String _ s' =>
      match skip with
      | S k => countFrom s' substr k
      | 0 => if String.prefix substr s
             then S (countFrom s' substr (String.length substr - 1))
             else countFrom s' substr 0
      end
  end.

Definition Count (s substr : string) : nat := countFrom s substr 0.

(** Membership of a byte in a cutset, and the test that a string holds
    only bytes below [utf8.RuneSelf] (0x80). *)
Fixpoint containsByte (cutset : string) (c : ascii) : bool :=
  match cutset with
  | EmptyString => false
  | String d cutset' => Ascii.eqb c d || containsByte cutset' c
  end.

Fixpoint isASCII (s : string) : bool :=
  match s with
  | EmptyString => true
  | String c s' => Nat.ltb (nat_of_ascii c) 128 && isASCII s'
  end.

(** [trimLeftASCII]: drop leading bytes for as long as they occur in the
    cutset. *)
Fixpoint trimLeftASCII (s cutset : string) : string :=
  match s with
  | EmptyString => EmptyString
  | String c s' => if containsByte cutset c then trimLeftASCII s' cutset else s
  end.

(** [strings.TrimLeft(s, cutset)]: the cutset is a SET of characters, not
    a prefix.  With an ASCII cutset Go works byte by byte; with any other
    cutset it decodes runes, which is left to [trimLeftUnicode]. *)
Definition TrimLeft (trimLeftUnicode : string -> string -> string)
           (s cutset : string) : string :=
  if String.eqb s "" || String.eqb cutset "" then s
  else if isASCII cutset then trimLeftASCII s cutset
  else trimLeftUnicode s cutset.

End strings.

(** ** Errors and results *)

Definition error := option string.
Definition slice := option (list string).

(** A Go [[]byte]. *)
Definition bytes := list Init.Byte.byte.

(** What a collaborator's call yields: a value, or an error message. *)
Inductive Result (A : Type) : Type :=
| Ok (a : A)
| Err (msg : string).
Arguments Err {A} msg.

(** ** ParseContainerImage and isDockerHub *)

Definition ParseContainerImage (image : string) : string * string * error :=
  let split := strings.SplitN image ":" 2 in
  if Nat.leb (List.length split) 1 then
    ("", "", Some ("Cannot find tag for image " ++ image))
  else
    let imageName := nth 0 split "" in
    let tag := nth 1 split "" in
    (imageName, tag, None).

Definition isDockerHub (registryAddress : string) : bool :=
  strings.HasPrefix registryAddress "https://registry-1.docker.io"
  || strings.HasPrefix registryAddress "https://index.docker.io".

(** ** Data of the Kubernetes, Docker and OCI libraries

    Only the fields the code reads are kept.  A Go map is modelled by the
    list of its entries, keys pairwise distinct, in the order in which
    [reflect.Value.MapKeys] lists them in the run at hand; Go leaves that
    order unspecified. *)

Definition GoMap (V : Type) : Type := list (string * V).

Definition MapKeys {V : Type} (m : GoMap V) : list string := map fst m.

(** [m[key]], the zero value when the key is absent. *)
Fixpoint mapIndex {V : Type} (m : GoMap V) (key : string) (zero : V) : V :=
  match m with
  | [] => zero
  | (k, v) :: m' => if String.eqb k key then v else mapIndex m' key zero
  end.

Module corev1.
Record LocalObjectReference : Type := { Name : string }.
Record Container : Type := { Image : string }.
Record PodSpec : Type := { ImagePullSecrets : list LocalObjectReference }.
Record Secret : Type := { Data : GoMap bytes }.
Definition DockerConfigJsonKey : string := ".dockerconfigjson".
End corev1.

Module dockerTypes.
Record AuthConfig : Type := { Username : string; Password : string }.
Definition zero : AuthConfig := {| Username := ""; Password := "" |}.
End dockerTypes.

Module imagev1.
Record ImageConfig : Type := { Entrypoint : slice; Cmd : slice }.
Record Image : Type := { Config : ImageConfig }.
End imagev1.

Module schema2.
Record Manifest : Type := { ConfigDigest : string }.
End schema2.

Record DockerCreds : Type := { Auths : GoMap dockerTypes.AuthConfig }.

(** K8s structure keeps information retrieved from POD definition.  The
    [clientset] field is the cluster API of the [World] below. *)
Record K8s : Type := {
  Namespace : string;
  ImagePullSecrets : string;
  RegistryAddress : string;
  RegistryName : string;
  RegistryUsername : string;
  RegistryPassword : string;
  Image : string
}.

Definition set_ImagePullSecrets (k : K8s) (v : string) : K8s :=
  {| Namespace := Namespace k; ImagePullSecrets := v;
     RegistryAddress := RegistryAddress k; RegistryName := RegistryName k;
     RegistryUsername := RegistryUsername k;
     RegistryPassword := RegistryPassword k; Image := Image k |}.

Definition set_RegistryAddress (k : K8s) (v : string) : K8s :=
  {| Namespace := Namespace k; ImagePullSecrets := ImagePullSecrets k;
     RegistryAddress := v; RegistryName := RegistryName k;
     RegistryUsername := RegistryUsername k;
     RegistryPassword := RegistryPassword k; Image := Image k |}.

Definition set_RegistryName (k : K8s) (v : string) : K8s :=
  {| Namespace := Namespace k; ImagePullSecrets := ImagePullSecrets k;
     RegistryAddress := RegistryAddress k; RegistryName := v;
     RegistryUsername := RegistryUsername k;
     RegistryPassword := RegistryPassword k; Image := Image k |}.

Definition set_RegistryUsername (k : K8s) (v : string) : K8s :=
  {| Namespace := Namespace k; ImagePullSecrets := ImagePullSecrets k;
     RegistryAddress := RegistryAddress k; RegistryName := RegistryName k;
     RegistryUsername := v;
     RegistryPassword := RegistryPassword k; Image := Image k |}.

Definition set_RegistryPassword (k : K8s) (v : string) : K8s :=
  {| Namespace := Namespace k; ImagePullSecrets := ImagePullSecrets k;
     RegistryAddress := RegistryAddress k; RegistryName := RegistryName k;
     RegistryUsername := RegistryUsername k;
     RegistryPassword := v; Image := Image k |}.

Definition set_Image (k : K8s) (v : string) : K8s :=
  {| Namespace := Namespace k; ImagePullSecrets := ImagePullSecrets k;
     RegistryAddress := RegistryAddress k; RegistryName := RegistryName k;
     RegistryUsername := RegistryUsername k;
     RegistryPassword := RegistryPassword k; Image := v |}.

(** [K8s{Namespace: namespace, clientset: clientset}]: every other field
    holds the empty string. *)
Definition newK8s (namespace : string) : K8s :=
  {| Namespace := namespace; ImagePullSecrets := ""; RegistryAddress := "";
     RegistryName := ""; RegistryUsername := ""; RegistryPassword := "";
     Image := "" |}.

(** ** The world outside the package

    The environment, the cluster API, the registry client and the decoders
    of the libraries are not part of the package: a [World] fixes what each
    of their calls answers.  [Hub] stands for [*registry.Registry], [Reader]
    for the [io.ReadCloser] of a blob. *)

(** [DownloadBlob] answers with a stream, or with an error and possibly a
    stream that still has to be closed. *)
Inductive BlobResult (Reader : Type) : Type :=
| BlobStream (reader : Reader)
| BlobFailed (reader : option Reader) (msg : string).

Record World (Hub Reader : Type) : Type := {
  os_Getenv : string -> string;
  strings_trimLeftUnicode : string -> string -> string;
  secrets_Get : string -> string -> Result corev1.Secret;
  json_Unmarshal_DockerCreds : bytes -> Result DockerCreds;
  registry_New : string -> string -> string -> Result Hub;
  registry_NewInsecure : string -> string -> string -> Result Hub;
  hub_ManifestV2 : Hub -> string -> string -> Result schema2.Manifest;
  hub_DownloadBlob : Hub -> string -> string -> BlobResult Reader;
  ioutil_ReadAll : Reader -> Result bytes;
  json_Unmarshal_Image : bytes -> Result imagev1.Image
}.

(** The calls a run makes to the cluster and to the registry, in order.
    [RegistryNew] is [registry.New]; [RegistryNewInsecure] is
    [registry.NewInsecure], whose client does not verify TLS
    certificates. *)
Inductive Event : Type :=
| SecretsGet (namespace name : string)
| RegistryNew (url username password : string)
| RegistryNewInsecure (url username password : string)
| ManifestV2 (repository tag : string)
| DownloadBlob (repository digest : string)
| ReadAll
| Close.

(** A Go function returns, or panics. *)
Inductive Outcome (A : Type) : Type :=
| Returned (a : A)
| Panicked (msg : string).
Arguments Panicked {A} msg.

Record Run (A : Type) : Type := mkRun {
  calls : list Event;
  outcome : Outcome A
}.

Definition ret {A : Type} (a : A) : Run A :=
  {| calls := []; outcome := Returned a |}.

Definition bind {A B : Type} (m : Run A) (f : A -> Run B) : Run B :=
  match outcome m with
  | Panicked msg => {| calls := calls m; outcome := Panicked msg |}
  | Returned a =>
      let r := f a in
      {| calls := (calls m ++ calls r)%list; outcome := outcome r |}
  end.

Definition call {A : Type} (e : Event) (answer : A) : Run A :=
  {| calls := [e]; outcome := Returned answer |}.

Definition lift {A : Type} (o : Outcome A) : Run A :=
  {| calls := []; outcome := o |}.

(** A deferred call runs when the function leaves, also by a panic. *)
Definition defer {A : Type} (deferred : list Event) (body : Run A) : Run A :=
  {| calls := (calls body ++ deferred)%list; outcome := outcome body |}.

Notation "x <- m ;; f" := (bind m (fun x => f))
  (at level 61, m at next level, right associativity).

(** ** The package's functions *)

Section Registry.

Context {Hub Reader : Type} (w : World Hub Reader).

(** GetImageBlob download image blob from registry *)
Definition GetImageBlob (url username password image : string)
  : Run (slice * slice * error) :=
  match ParseContainerImage image with
  | (_, _, Some err) => ret (None, None, Some err)
  | (imageName, tag, None) =>
      let registrySkipVerify := os_Getenv w "REGISTRY_SKIP_VERIFY" in
      hub <- (if String.eqb registrySkipVerify "true"
              then call (RegistryNewInsecure url username password)
                        (registry_NewInsecure w url username password)
              else call (RegistryNew url username password)
                        (registry_New w url username password)) ;;
      match hub with
      | Err err =>
          ret (None, None, Some ("cannot create client for registry: " ++ err))
      | Ok hub =>
          manifest <- call (ManifestV2 imageName tag)
                           (hub_ManifestV2 w hub imageName tag) ;;
          match manifest with
          | Err err =>
              ret (None, None,
                   Some ("cannot download manifest for image: " ++ err))
          | Ok manifest =>
              let digest := schema2.ConfigDigest manifest in
              blob <- call (DownloadBlob imageName digest)
                           (hub_DownloadBlob w hub imageName digest) ;;
              match blob with
              | BlobFailed reader err =>
                  defer (match reader with Some _ => [Close] | None => [] end)
                    (ret (None, None, Some ("cannot download blob: " ++ err)))
              | BlobStream reader =>
                  defer [Close]
                    (b <- call ReadAll (ioutil_ReadAll w reader) ;;
                     match b with
                     | Err err =>
                         ret (None, None, Some ("cannot read blob: " ++ err))
                     | Ok b =>
                         match json_Unmarshal_Image w b with
                         | Err err =>
                             ret (None, None,
                                  Some ("cannot unmarshal BlobResponse JSON: "
                                        ++ err))
                         | Ok imageMetadata =>
                             ret (imagev1.Entrypoint (imagev1.Config imageMetadata),
                                  imagev1.Cmd (imagev1.Config imageMetadata),
                                  None)
                         end
                     end)
              end
          end
      end
  end.

(** [k.clientset.CoreV1().Secrets(namespace).Get(secretName, ...)]: one
    call to the cluster, through a clientset that is not nil. *)
Definition readDockerSecret (k : K8s) (namespace secretName : string)
  : Run (GoMap bytes * error) :=
  secret <- call (SecretsGet namespace secretName)
                 (secrets_Get w namespace secretName) ;;
  match secret with
  | Err err => ret ([], Some err)
  | Ok secret => ret (corev1.Data secret, None)
  end.

(** The key list is indexed at 0 whatever its length: on an empty map the
    index expression panics. *)
Definition parseDockerConfig (k : K8s) (dockerCreds : DockerCreds)
  : Outcome K8s :=
  match MapKeys (Auths dockerCreds) with
  | [] => Panicked "runtime error: index out of range"
  | key :: _ =>
      let k := set_RegistryName k key in
      let k :=
        if negb (strings.HasPrefix (RegistryName k) "https://")
        then set_RegistryAddress k ("https://" ++ RegistryName k)
        else set_RegistryAddress k (RegistryName k) in
      let auths := Auths dockerCreds in
      let k := set_RegistryUsername k
                 (dockerTypes.Username
                    (mapIndex auths (RegistryName k) dockerTypes.zero)) in
      let k := set_RegistryPassword k
                 (dockerTypes.Password
                    (mapIndex auths (RegistryName k) dockerTypes.zero)) in
      Returned k
  end.

(** Load reads information from k8s and load them into the structure.
    The receiver is passed in and handed back with the error. *)
Definition Load (k : K8s) (container : corev1.Container)
           (podSpec : corev1.PodSpec) : Run (K8s * error) :=
  let k := set_Image k (corev1.Image container) in
  match corev1.ImagePullSecrets podSpec with
  | [] => ret (k, None)
  | first :: _ =>
      let k := set_ImagePullSecrets k (corev1.Name first) in
      if negb (String.eqb (ImagePullSecrets k) "") then
        r <- readDockerSecret k (Namespace k) (ImagePullSecrets k) ;;
        match r with
        | (_, Some err) =>
            ret (k, Some ("cannot read imagePullSecrets: " ++ err))
        | (data, None) =>
            let dockerConfig :=
              mapIndex data corev1.DockerConfigJsonKey [] in
            match json_Unmarshal_DockerCreds w dockerConfig with
            | Err err =>
                ret (k, Some ("cannot unmarshal docker configuration from imagePullSecrets: " ++ err))
            | Ok dockerCreds =>
                k <- lift (parseDockerConfig k dockerCreds) ;;
                ret (k, None)
            end
        end
      else ret (k, None)
  end.

(** GetEntrypointCmd returns entrypoint and command of container *)
Definition GetEntrypointCmd (namespace : string)
           (container : corev1.Container) (podSpec : corev1.PodSpec)
  : Run (slice * slice * error) :=
  let podInfo := newK8s namespace in
  r <- Load podInfo container podSpec ;;
  match r with
  | (_, Some err) => ret (None, None, Some err)
  | (podInfo, None) =>
      let podInfo :=
        if negb (String.eqb (RegistryName podInfo) "")
        then set_Image podInfo
               (strings.TrimLeft (strings_trimLeftUnicode w) (Image podInfo)
                                 (RegistryName podInfo ++ "/"))
        else podInfo in
      let registryAddress := RegistryAddress podInfo in
      let registryAddress :=
        if String.eqb registryAddress ""
        then "https://registry-1.docker.io/"
        else registryAddress in
      let podInfo :=
        if isDockerHub registryAddress
           && Nat.eqb (strings.Count (Image podInfo) "/") 0
        then set_Image podInfo ("library/" ++ Image podInfo)
        else podInfo in
      GetImageBlob registryAddress (RegistryUsername podInfo)
                   (RegistryPassword podInfo) (Image podInfo)
  end.

End Registry.

(** ** Sample worlds

    A registry that answers every call, behind a cluster whose only pull
    secret decodes to [creds]; [skipVerify] is the value of the
    [REGISTRY_SKIP_VERIFY] variable. *)

Definition sampleImage : imagev1.Image :=
  {| imagev1.Config :=
       {| imagev1.Entrypoint := Some ["/docker-entrypoint.sh"];
          imagev1.Cmd := Some ["nginx"; "-g"; "daemon off;"] |} |}.

Definition sampleWorld (skipVerify : string) (creds : DockerCreds)
  : World unit unit :=
  {| os_Getenv := fun key =>
       if String.eqb key "REGISTRY_SKIP_VERIFY" then skipVerify else "";
     strings_trimLeftUnicode := fun s _ => s;
     secrets_Get := fun _ _ =>
       Ok {| corev1.Data := [(corev1.DockerConfigJsonKey, [])] |};
     json_Unmarshal_DockerCreds := fun _ => Ok creds;
     registry_New := fun _ _ _ => Ok tt;
     registry_NewInsecure := fun _ _ _ => Ok tt;
     hub_ManifestV2 := fun _ _ _ => Ok {| schema2.ConfigDigest := "sha256:0" |};
     hub_DownloadBlob := fun _ _ _ => BlobStream tt;
     ioutil_ReadAll := fun _ => Ok [];
     json_Unmarshal_Image := fun _ => Ok sampleImage |}.

(** A pull secret for one private registry, and the empty credentials
    document [{"auths":{}}]. *)
Definition privateCreds : DockerCreds :=
  {| Auths := [("registry.example.com",
                {| dockerTypes.Username := "bot";
                   dockerTypes.Password := "s3cret" |})] |}.

Definition emptyCreds : DockerCreds := {| Auths := [] |}.

(** The pull secret that [docker login] writes for Docker Hub. *)
Definition dockerHubCreds : DockerCreds :=
  {| Auths := [("https://index.docker.io/v1/",
                {| dockerTypes.Username := "bot";
                   dockerTypes.Password := "s3cret" |})] |}.

Definition podWithSecret (name : string) : corev1.PodSpec :=
  {| corev1.ImagePullSecrets := [ {| corev1.Name := name |} ] |}.

Definition podWithoutSecrets : corev1.PodSpec :=
  {| corev1.ImagePullSecrets := [] |}.

(** ** Vocabulary of the statements *)

(** The byte [c] occurs in [s]. *)
Definition occurs (c : ascii) (s : string) : Prop :=
  In c (list_ascii_of_string s).

(** A result without partial success: both sequences and no error, or an
    error and two nil sequences. *)
Definition all_or_nothing (r : slice * slice * error) : Prop :=
  (exists entrypoint cmd, r = (entrypoint, cmd, None))
  \/ (exists err, r = (None, None, Some err)).

(** The registry fields of the structure are all empty. *)
Definition registry_fields_empty (k : K8s) : Prop :=
  RegistryAddress k = "" /\ RegistryName k = "" /\ RegistryUsername k = ""
  /\ RegistryPassword k = "" /\ ImagePullSecrets k = "".

(** The pod declares no pull secret that can be read: none at all, or a
    first one without a name. *)
Definition no_pull_secret (podSpec : corev1.PodSpec) : Prop :=
  match corev1.ImagePullSecrets podSpec with
  | [] => True
  | first :: _ => corev1.Name first = ""
  end.

(** The call creates a registry client. *)
Definition creates_client (e : Event) : bool :=
  match e with
  | RegistryNew _ _ _ | RegistryNewInsecure _ _ _ => true
  | _ => false
  end.

(** A world in which every collaborator gives the answer handed in, to
    whatever it is asked. *)
Definition stagedWorld (skipVerify : string)
           (secret : Result corev1.Secret) (creds : Result DockerCreds)
           (client : Result unit) (manifest : Result schema2.Manifest)
           (blob : BlobResult unit) (read : Result bytes)
           (image : Result imagev1.Image) : World unit unit :=
  {| os_Getenv := fun key =>
       if String.eqb key "REGISTRY_SKIP_VERIFY" then skipVerify else "";
     strings_trimLeftUnicode := fun s _ => s;
     secrets_Get := fun _ _ => secret;
     json_Unmarshal_DockerCreds := fun _ => creds;
     registry_New := fun _ _ _ => client;
     registry_NewInsecure := fun _ _ _ => client;
     hub_ManifestV2 := fun _ _ _ => manifest;
     hub_DownloadBlob := fun _ _ _ => blob;
     ioutil_ReadAll := fun _ => read;
     json_Unmarshal_Image := fun _ => image |}.

(** A cluster that has no such secret, and one whose secret is of the
    older [.dockercfg] kind, without the [.dockerconfigjson] key. *)
Definition unreadableSecretWorld : World unit unit :=
  stagedWorld "" (Err "secret not found") (Ok privateCreds) (Ok tt)
    (Ok {| schema2.ConfigDigest := "sha256:0" |})
    (BlobStream tt) (Ok []) (Ok sampleImage).

Definition legacySecretWorld : World unit unit :=
  stagedWorld "" (Ok {| corev1.Data := [(".dockercfg", [])] |})
    (Err "unexpected end of JSON input") (Ok tt)
    (Ok {| schema2.ConfigDigest := "sha256:0" |})
    (BlobStream tt) (Ok []) (Ok sampleImage).

(** A registry that answers as handed in, behind a cluster without
    secrets to read. *)
Definition registryWorld (client : Result unit)
           (manifest : Result schema2.Manifest) (blob : BlobResult unit)
           (read : Result bytes) (image : Result imagev1.Image)
  : World unit unit :=
  stagedWorld "" (Err "secret not found") (Ok privateCreds)
    client manifest blob read image.

(** The constructor [GetImageBlob] picks for the registry client, as a
    call and as the answer of the world to it. *)
Definition client_call {Hub Reader : Type} (w : World Hub Reader)
           (url username password : string) : Event :=
  if String.eqb (os_Getenv w "REGISTRY_SKIP_VERIFY") "true"
  then RegistryNewInsecure url username password
  else RegistryNew url username password.

Definition client_answer {Hub Reader : Type} (w : World Hub Reader)
           (url username password : string) : Result Hub :=
  if String.eqb (os_Getenv w "REGISTRY_SKIP_VERIFY") "true"
  then registry_NewInsecure w url username password
  else registry_New w url username password.


(** The key is absent from the map. *)
Definition absent {V : Type} (key : string) (m : GoMap V) : Prop :=
  ~ In key (MapKeys m).

(** ** Facts on the string functions *)

Unset Implicit Arguments.

Lemma prefix_iff_append (p s : string) :
  String.prefix p s = true <-> exists rest, s = p ++ rest.
Proof.
  revert s; induction p as [|c p IH]; intros s.
  - split; [intros _; exists s; reflexivity | destruct s; reflexivity].
  - destruct s as [|d s]; simpl.
    + split; [discriminate | intros [rest H]; discriminate].
    + destruct (ascii_dec c d) as [->|Hne].
      * rewrite IH. split; intros [rest H]; exists rest.
        -- now rewrite H.
        -- now inversion H.
      * split; [discriminate | intros [rest H]; inversion H; congruence].
Qed.

Lemma Index_absent (s : string) (c : ascii) :
  ~ occurs c s -> strings.Index s (String c "") = None.
Proof.
  unfold occurs; induction s as [|d s IH]; simpl; intros Hno.
  - reflexivity.
  - destruct (ascii_dec c d) as [->|Hne]; [exfalso; apply Hno; now left|].
    destruct s; (rewrite IH; [reflexivity | intros H; apply Hno; now right]).
Qed.

Lemma Index_first (name tag : string) (c : ascii) :
  ~ occurs c name ->
  strings.Index (name ++ String c tag) (String c "") = Some (String.length name).
Proof.
  unfold occurs; induction name as [|d name IH]; simpl; intros Hno.
  - destruct (ascii_dec c c) as [_|Hne]; [|contradiction].
    destruct tag; reflexivity.
  - destruct (ascii_dec c d) as [->|Hne]; [exfalso; apply Hno; now left|].
    assert (Hname : ~ In c (list_ascii_of_string name))
      by (intros H; apply Hno; now right).
    specialize (IH Hname).
    destruct (name ++ String c tag); [discriminate IH|].
    rewrite IH. reflexivity.
Qed.

Lemma slice_to_append (a b : string) :
  strings.slice_to (a ++ b) (String.length a) = a.
Proof.
  unfold strings.slice_to; induction a as [|c a IH]; simpl.
  - destruct b; reflexivity.
  - now rewrite IH.
Qed.

Lemma substring_all (s : string) : substring 0 (String.length s) s = s.
Proof. induction s as [|c s IH]; simpl; [reflexivity | now rewrite IH]. Qed.

Lemma slice_from_append (a b : string) :
  strings.slice_from (a ++ b) (String.length a) = b.
Proof.
  unfold strings.slice_from; induction a as [|c a IH]; simpl.
  - rewrite Nat.sub_0_r. apply substring_all.
  - exact IH.
Qed.

Lemma split_at_first (c : ascii) (s : string) :
  occurs c s ->
  exists name tag, s = name ++ String c tag /\ ~ occurs c name.
Proof.
  unfold occurs; induction s as [|d s IH]; simpl; intros Hin.
  - contradiction.
  - destruct (ascii_dec c d) as [->|Hne].
    + exists "", s. split; [reflexivity | intros []].
    + destruct Hin as [Heq|Hin]; [congruence|].
      destruct (IH Hin) as (name & tag & -> & Hno).
      exists (String d name), tag. split; [reflexivity|].
      simpl. intros [Heq|H]; [congruence | contradiction].
Qed.

(** ** ParseContainerImage *)

(** C5: an image string that holds no [':'] makes [ParseContainerImage]
    return an error together with the empty name and the empty tag. *)
Theorem ParseContainerImage_without_tag (image : string) :
  ~ occurs ":" image ->
  ParseContainerImage image
  = ("", "", Some ("Cannot find tag for image " ++ image)).
Proof.
  intros Hno. unfold ParseContainerImage. simpl.
  rewrite Index_absent by exact Hno. reflexivity.
Qed.

Lemma ParseContainerImage_without_tag_witness :
  ~ occurs ":" "library/nginx"
  /\ ParseContainerImage "library/nginx"
     = ("", "", Some "Cannot find tag for image library/nginx").
Proof.
  assert (H : ~ occurs ":" "library/nginx").
  { unfold occurs; simpl; intros H.
    repeat (destruct H as [H|H]; [discriminate H|]). exact H. }
  split; [exact H | exact (ParseContainerImage_without_tag "library/nginx" H)].
Defined.

Lemma ParseContainerImage_name_tag (name tag : string) :
  ~ occurs ":" name ->
  ParseContainerImage (name ++ ":" ++ tag) = (name, tag, None).
Proof.
  intros Hno. unfold ParseContainerImage. simpl.
  rewrite Index_first by exact Hno. simpl.
  rewrite slice_to_append.
  replace (String.length name + 1) with (String.length (name ++ ":")).
  - change (String ":" tag) with (":" ++ tag).
    replace (name ++ ":" ++ tag) with ((name ++ ":") ++ tag).
    + now rewrite slice_from_append.
    + clear; induction name; simpl; [reflexivity | now f_equal].
  - clear; induction name; simpl; [reflexivity | now f_equal].
Qed.

(** C6: an image string that holds a [':'] is split at the first one, the
    part before it returned as name and the part after it as tag, without
    error; ["library/nginx:1.19"] gives ["library/nginx"] and ["1.19"]. *)
Theorem ParseContainerImage_splits_at_first_colon :
  (forall image, occurs ":" image ->
     exists name tag,
       image = name ++ ":" ++ tag /\ ~ occurs ":" name
       /\ ParseContainerImage image = (name, tag, None))
  /\ ParseContainerImage "library/nginx:1.19" = ("library/nginx", "1.19", None).
Proof.
  split; [|reflexivity].
  intros image Hin.
  destruct (split_at_first ":" image Hin) as (name & tag & -> & Hno).
  exists name, tag. repeat split; [exact Hno|].
  exact (ParseContainerImage_name_tag name tag Hno).
Qed.

Lemma ParseContainerImage_splits_at_first_colon_witness :
  occurs ":" "quay.io:5000/app:v2:x"
  /\ ParseContainerImage "quay.io:5000/app:v2:x" = ("quay.io", "5000/app:v2:x", None).
Proof.
  assert (Hin : occurs ":" "quay.io:5000/app:v2:x")
    by (unfold occurs; simpl; tauto).
  split; [exact Hin|].
  destruct (proj1 ParseContainerImage_splits_at_first_colon _ Hin)
    as (name & tag & _ & _ & Hparse).
  rewrite Hparse. vm_compute in Hparse.
  now inversion Hparse.
Defined.

(** ** isDockerHub *)

(** C8: [isDockerHub] answers true exactly for the addresses that begin
    with [https://registry-1.docker.io] or with [https://index.docker.io];
    it answers false for [https://myregistry.example.com]. *)
Theorem isDockerHub_iff_hub_prefix :
  (forall registryAddress,
     isDockerHub registryAddress = true <->
     (exists rest, registryAddress = "https://registry-1.docker.io" ++ rest)
     \/ (exists rest, registryAddress = "https://index.docker.io" ++ rest))
  /\ isDockerHub "https://myregistry.example.com" = false.
Proof.
  split; [|reflexivity].
  intros registryAddress. unfold isDockerHub, strings.HasPrefix.
  rewrite orb_true_iff, !prefix_iff_append. reflexivity.
Qed.

(** ** Load *)

Section LoadProperties.

Context {Hub Reader : Type} (w : World Hub Reader).

(** C9: with no image-pull secret in the pod spec, [Load] returns no
    error, calls nothing, and changes the [Image] field only: registry
    fields that were empty stay empty. *)
Theorem Load_without_pull_secrets
        (k : K8s) (container : corev1.Container) (podSpec : corev1.PodSpec) :
  corev1.ImagePullSecrets podSpec = [] ->
  Load w k container podSpec
  = ret (set_Image k (corev1.Image container), None)
  /\ (registry_fields_empty k ->
      registry_fields_empty (set_Image k (corev1.Image container)))
  /\ Image (set_Image k (corev1.Image container)) = corev1.Image container.
Proof.
  intros Hnone. unfold Load. rewrite Hnone.
  repeat split; destruct H as (? & ? & ? & ? & ?); assumption.
Qed.

(** C10: [Load] looks at the first image-pull secret only.  The entries
    after it change neither the calls nor the result; when the first one
    has the empty name, no secret is read, no error is returned and the
    registry fields stay empty. *)
Theorem Load_first_pull_secret_only
        (k : K8s) (container : corev1.Container)
        (first : corev1.LocalObjectReference)
        (rest rest' : list corev1.LocalObjectReference) :
  Load w k container {| corev1.ImagePullSecrets := first :: rest |}
  = Load w k container {| corev1.ImagePullSecrets := first :: rest' |}
  /\ (corev1.Name first = "" ->
      let k' := set_ImagePullSecrets
                  (set_Image k (corev1.Image container)) "" in
      Load w k container {| corev1.ImagePullSecrets := first :: rest |}
      = ret (k', None)
      /\ calls (Load w k container
                     {| corev1.ImagePullSecrets := first :: rest |}) = []
      /\ (registry_fields_empty k -> registry_fields_empty k')).
Proof.
  split; [reflexivity|].
  intros Hname. unfold Load. simpl. rewrite Hname. simpl.
  repeat split; destruct H as (? & ? & ? & ? & ?); assumption.
Qed.

(** Whatever the secret holds, a credentials document without entries
    makes [Load] panic. *)
Lemma Load_empty_credentials_panics
      (k : K8s) (container : corev1.Container)
      (first : corev1.LocalObjectReference)
      (rest : list corev1.LocalObjectReference)
      (secret : corev1.Secret) (dockerCreds : DockerCreds) :
  corev1.Name first <> "" ->
  secrets_Get w (Namespace k) (corev1.Name first) = Ok secret ->
  json_Unmarshal_DockerCreds w
    (mapIndex (corev1.Data secret) corev1.DockerConfigJsonKey []) = Ok dockerCreds ->
  Auths dockerCreds = [] ->
  outcome (Load w k container {| corev1.ImagePullSecrets := first :: rest |})
  = Panicked "runtime error: index out of range".
Proof.
  intros Hname Hget Hjson Hempty. unfold Load. simpl.
  destruct (String.eqb_spec (corev1.Name first) "") as [|_]; [contradiction|].
  simpl. unfold readDockerSecret, bind, call. simpl.
  rewrite Hget. simpl. rewrite Hjson. simpl.
  unfold parseDockerConfig. rewrite Hempty. reflexivity.
Qed.

End LoadProperties.

Lemma Load_without_pull_secrets_witness :
  Load (sampleWorld "" privateCreds) (newK8s "default")
       {| corev1.Image := "nginx:1.19" |} podWithoutSecrets
  = ret (set_Image (newK8s "default") "nginx:1.19", None).
Proof.
  exact (proj1 (Load_without_pull_secrets (sampleWorld "" privateCreds)
                  (newK8s "default") {| corev1.Image := "nginx:1.19" |}
                  podWithoutSecrets eq_refl)).
Defined.

Lemma Load_first_pull_secret_only_witness :
  calls (Load (sampleWorld "" privateCreds) (newK8s "default")
              {| corev1.Image := "nginx:1.19" |}
              {| corev1.ImagePullSecrets :=
                   [ {| corev1.Name := "" |}; {| corev1.Name := "regcred" |} ] |})
  = [].
Proof.
  exact (proj1 (proj2
           (proj2 (Load_first_pull_secret_only (sampleWorld "" privateCreds)
                     (newK8s "default") {| corev1.Image := "nginx:1.19" |}
                     {| corev1.Name := "" |}
                     [ {| corev1.Name := "regcred" |} ] [])
                  eq_refl))).
Defined.

(** C2: the credentials mapping is indexed at 0 without a test of its
    length, so the empty document [{"auths":{}}] makes [parseDockerConfig],
    and with it [Load], panic instead of completing. *)
Theorem Load_empty_credentials_index_out_of_range :
  (forall k, parseDockerConfig k emptyCreds
             = Panicked "runtime error: index out of range")
  /\ Load (sampleWorld "" emptyCreds) (newK8s "default")
          {| corev1.Image := "nginx:1.19" |} (podWithSecret "regcred")
     = {| calls := [SecretsGet "default" "regcred"];
          outcome := Panicked "runtime error: index out of range" |}.
Proof. split; reflexivity. Qed.

(** ** GetImageBlob and GetEntrypointCmd *)

Section BlobProperties.

Context {Hub Reader : Type} (w : World Hub Reader).

Local Ltac nothing := right; eexists; reflexivity.
Local Ltac everything := left; do 2 eexists; reflexivity.

(** [GetImageBlob] never panics, and its result has no partial success. *)
Lemma GetImageBlob_all_or_nothing (url username password image : string) :
  exists r,
    outcome (GetImageBlob w url username password image) = Returned r
    /\ all_or_nothing r.
Proof.
  unfold GetImageBlob.
  destruct (ParseContainerImage image) as [[imageName tag] [err|]].
  { eexists; split; [reflexivity | nothing]. }
  destruct (String.eqb _ "true").
  - destruct (registry_NewInsecure w url username password) as [hub|err];
      simpl; [|eexists; split; [reflexivity | nothing]].
    destruct (hub_ManifestV2 w hub imageName tag) as [manifest|err];
      simpl; [|eexists; split; [reflexivity | nothing]].
    destruct (hub_DownloadBlob w hub imageName _) as [reader|reader err];
      simpl; [|eexists; split; [reflexivity | nothing]].
    destruct (ioutil_ReadAll w reader) as [b|err];
      simpl; [|eexists; split; [reflexivity | nothing]].
    destruct (json_Unmarshal_Image w b) as [imageMetadata|err];
      simpl; eexists; (split; [reflexivity|]); [everything | nothing].
  - destruct (registry_New w url username password) as [hub|err];
      simpl; [|eexists; split; [reflexivity | nothing]].
    destruct (hub_ManifestV2 w hub imageName tag) as [manifest|err];
      simpl; [|eexists; split; [reflexivity | nothing]].
    destruct (hub_DownloadBlob w hub imageName _) as [reader|reader err];
      simpl; [|eexists; split; [reflexivity | nothing]].
    destruct (ioutil_ReadAll w reader) as [b|err];
      simpl; [|eexists; split; [reflexivity | nothing]].
    destruct (json_Unmarshal_Image w b) as [imageMetadata|err];
      simpl; eexists; (split; [reflexivity|]); [everything | nothing].
Qed.

(** X25: [GetImageBlob] always returns, and what it returns is either the
    two sequences with the nil error or an error with two nil sequences,
    whichever stage fails.  What [GetEntrypointCmd] returns has the same
    shape; where it does not return, [Load] has panicked. *)
Theorem no_partial_success :
  (forall url username password image,
      exists r,
        outcome (GetImageBlob w url username password image) = Returned r
        /\ all_or_nothing r)
  /\ (forall namespace container podSpec,
         match outcome (GetEntrypointCmd w namespace container podSpec) with
         | Returned r => all_or_nothing r
         | Panicked msg =>
             outcome (Load w (newK8s namespace) container podSpec)
             = Panicked msg
         end).
Proof.
  split; [exact GetImageBlob_all_or_nothing|].
  intros namespace container podSpec. unfold GetEntrypointCmd, bind.
  destruct (outcome (Load w (newK8s namespace) container podSpec))
    as [[podInfo [err|]]|msg]; [nothing | | reflexivity].
  cbv beta iota zeta; cbn [outcome].
  match goal with
  | |- context [GetImageBlob w ?a ?u ?p ?i] =>
      pose proof (GetImageBlob_all_or_nothing a u p i) as Hblob;
      set (blob := GetImageBlob w a u p i) in *
  end.
  clearbody blob. destruct Hblob as (r & Hret & Hr).
  unfold slice, error in *. rewrite Hret. exact Hr.
Qed.

End BlobProperties.

Section ClientProperties.

Context {Hub Reader : Type} (w : World Hub Reader).

Lemma ParseContainerImage_with_tag (image : string) :
  occurs ":" image ->
  exists name tag, ParseContainerImage image = (name, tag, None).
Proof.
  intros Hin.
  destruct (split_at_first ":" image Hin) as (name & tag & -> & Hno).
  exists name, tag. exact (ParseContainerImage_name_tag name tag Hno).
Qed.

Lemma GetImageBlob_calls (url username password image : string) :
  calls (GetImageBlob w url username password image) = []
  \/ exists later,
      calls (GetImageBlob w url username password image)
      = (if String.eqb (os_Getenv w "REGISTRY_SKIP_VERIFY") "true"
         then RegistryNewInsecure url username password
         else RegistryNew url username password) :: later
      /\ forallb (fun e => negb (creates_client e)) later = true.
Proof.
  unfold GetImageBlob.
  destruct (ParseContainerImage image) as [[imageName tag] [err|]];
    [left; reflexivity | right].
  destruct (String.eqb _ "true").
  - destruct (registry_NewInsecure w url username password) as [hub|err];
      simpl; [|eexists; split; reflexivity].
    destruct (hub_ManifestV2 w hub imageName tag) as [manifest|err];
      simpl; [|eexists; split; reflexivity].
    destruct (hub_DownloadBlob w hub imageName _) as [reader|[reader|] err];
      simpl; [|eexists; split; reflexivity ..].
    destruct (ioutil_ReadAll w reader) as [b|err];
      simpl; [|eexists; split; reflexivity].
    destruct (json_Unmarshal_Image w b) as [imageMetadata|err];
      simpl; eexists; split; reflexivity.
  - destruct (registry_New w url username password) as [hub|err];
      simpl; [|eexists; split; reflexivity].
    destruct (hub_ManifestV2 w hub imageName tag) as [manifest|err];
      simpl; [|eexists; split; reflexivity].
    destruct (hub_DownloadBlob w hub imageName _) as [reader|[reader|] err];
      simpl; [|eexists; split; reflexivity ..].
    destruct (ioutil_ReadAll w reader) as [b|err];
      simpl; [|eexists; split; reflexivity].
    destruct (json_Unmarshal_Image w b) as [imageMetadata|err];
      simpl; eexists; split; reflexivity.
Qed.

Lemma GetImageBlob_calls_with_tag (url username password image : string) :
  occurs ":" image ->
  calls (GetImageBlob w url username password image) <> [].
Proof.
  intros Hin Hnil.
  destruct (ParseContainerImage_with_tag image Hin) as (name & tag & Hparse).
  revert Hnil. unfold GetImageBlob. rewrite Hparse.
  destruct (String.eqb _ "true"); unfold bind; simpl.
  - destruct (registry_NewInsecure w url username password); discriminate.
  - destruct (registry_New w url username password); discriminate.
Qed.

(** C7: the registry client is created by [registry.NewInsecure], that is
    without TLS certificate verification, exactly when
    [REGISTRY_SKIP_VERIFY] holds the string [true]; with any other value,
    the empty one of an unset variable included, it is created by
    [registry.New].  A client is created for every image that has a
    tag, as the first call. *)
Theorem GetImageBlob_skip_verify (url username password image : string) :
  let run := GetImageBlob w url username password image in
  let skip := os_Getenv w "REGISTRY_SKIP_VERIFY" in
  (forall a b c, In (RegistryNewInsecure a b c) (calls run) -> skip = "true")
  /\ (forall a b c, In (RegistryNew a b c) (calls run) -> skip <> "true")
  /\ (occurs ":" image ->
      (skip = "true" ->
       hd_error (calls run) = Some (RegistryNewInsecure url username password))
      /\ (skip <> "true" ->
          hd_error (calls run) = Some (RegistryNew url username password))).
Proof.
  intros run skip. subst run skip.
  assert (Hlater : forall later e,
             forallb (fun e => negb (creates_client e)) later = true ->
             In e later -> creates_client e = false).
  { intros later e Hall Hin. rewrite forallb_forall in Hall.
    apply negb_true_iff. exact (Hall e Hin). }
  pose proof (GetImageBlob_calls_with_tag url username password image) as Htag.
  destruct (GetImageBlob_calls url username password image)
    as [Hnil|(later & Hcalls & Hall)].
  - rewrite Hnil in *.
    split; [intros ? ? ? [] | split; [intros ? ? ? [] |]].
    intros Hin; exfalso; exact (Htag Hin eq_refl).
  - rewrite Hcalls. clear Htag Hcalls.
    destruct (String.eqb_spec (os_Getenv w "REGISTRY_SKIP_VERIFY") "true")
      as [Heq|Hne].
    + split; [intros; exact Heq | split].
      * intros a b c [Hhd|Hin]; [discriminate Hhd|].
        apply (Hlater later _ Hall) in Hin. discriminate Hin.
      * intros _. split; [reflexivity | contradiction].
    + split; [|split].
      * intros a b c [Hhd|Hin]; [discriminate Hhd|].
        apply (Hlater later _ Hall) in Hin. discriminate Hin.
      * intros; exact Hne.
      * intros _. split; [contradiction | reflexivity].
Qed.

End ClientProperties.

Lemma GetImageBlob_skip_verify_witness :
  hd_error (calls (GetImageBlob (sampleWorld "true" privateCreds)
                     "https://registry.example.com" "bot" "s3cret" "myapp:1"))
  = Some (RegistryNewInsecure "https://registry.example.com" "bot" "s3cret").
Proof.
  assert (Hin : occurs ":" "myapp:1") by (unfold occurs; simpl; tauto).
  exact (proj1 (proj2 (proj2 (GetImageBlob_skip_verify
                                (sampleWorld "true" privateCreds)
                                "https://registry.example.com" "bot" "s3cret"
                                "myapp:1")) Hin) eq_refl).
Defined.

Section EntrypointProperties.

Context {Hub Reader : Type} (w : World Hub Reader).

Lemma bind_ret {A B : Type} (a : A) (f : A -> Run B) : bind (ret a) f = f a.
Proof. unfold bind, ret; simpl. destruct (f a); reflexivity. Qed.

Lemma Load_no_pull_secret (k : K8s) (container : corev1.Container)
      (podSpec : corev1.PodSpec) :
  no_pull_secret podSpec ->
  exists secretName,
    Load w k container podSpec
    = ret (set_ImagePullSecrets (set_Image k (corev1.Image container))
                                secretName, None)
    /\ (secretName = "" \/ secretName = ImagePullSecrets k).
Proof.
  unfold no_pull_secret, Load.
  destruct (corev1.ImagePullSecrets podSpec) as [|first rest].
  - intros _. exists (ImagePullSecrets k). split; [|now right].
    destruct k; reflexivity.
  - intros Hname. exists "". split; [|now left].
    simpl. rewrite Hname. reflexivity.
Qed.

Lemma HasPrefix_nonempty (s : string) :
  strings.HasPrefix s "https://" = true -> s <> "".
Proof. intros H ->. discriminate H. Qed.

(** After [parseDockerConfig] the registry address is never empty. *)
Lemma parseDockerConfig_address (k k' : K8s) (dockerCreds : DockerCreds) :
  parseDockerConfig k dockerCreds = Returned k' -> RegistryAddress k' <> "".
Proof.
  unfold parseDockerConfig.
  destruct (MapKeys (Auths dockerCreds)) as [|key keys]; [discriminate|].
  cbn [set_RegistryName RegistryName].
  destruct (strings.HasPrefix key "https://") eqn:Hprefix;
    intros Heq; inversion Heq; subst k'; clear Heq; simpl.
  - exact (HasPrefix_nonempty key Hprefix).
  - discriminate.
Qed.

(** A registry address is resolved exactly by reading a pull secret. *)
Lemma Load_unresolved_address (namespace : string)
      (container : corev1.Container) (podSpec : corev1.PodSpec)
      (cs : list Event) (k : K8s) :
  Load w (newK8s namespace) container podSpec
  = {| calls := cs; outcome := Returned (k, None) |} ->
  RegistryAddress k = "" -> no_pull_secret podSpec.
Proof.
  unfold Load, no_pull_secret.
  destruct (corev1.ImagePullSecrets podSpec) as [|first rest]; [trivial|].
  cbn [set_ImagePullSecrets ImagePullSecrets set_Image Namespace newK8s].
  destruct (String.eqb_spec (corev1.Name first) "") as [Hname|Hname];
    [intros; exact Hname|].
  cbn [negb]. unfold readDockerSecret, bind, call, ret, lift.
  cbn [outcome calls].
  destruct (secrets_Get w namespace (corev1.Name first)) as [secret|err];
    cbn [outcome calls]; [|discriminate].
  destruct (json_Unmarshal_DockerCreds w _) as [dockerCreds|err];
    cbn [outcome calls]; [|discriminate].
  destruct (parseDockerConfig _ dockerCreds) as [k'|msg] eqn:Hparse;
    cbn [outcome calls]; [|discriminate].
  intros Heq Haddr. inversion Heq; subst k'.
  exfalso. exact (parseDockerConfig_address _ _ _ Hparse Haddr).
Qed.

(** C4: without a registry address resolved from a pull secret the
    registry is [https://registry-1.docker.io/]; when the registry in
    use is Docker Hub and the image name holds no ['/'], [GetImageBlob]
    receives the name behind the prefix [library/]; the image [redis:6]
    of a pod without pull secrets is looked up as [library/redis:6]. *)
Theorem GetEntrypointCmd_default_registry_and_library_prefix
        (namespace : string) :
  (forall container podSpec,
      no_pull_secret podSpec ->
      GetEntrypointCmd w namespace container podSpec
      = GetImageBlob w "https://registry-1.docker.io/" "" ""
          (if Nat.eqb (strings.Count (corev1.Image container) "/") 0
           then "library/" ++ corev1.Image container
           else corev1.Image container))
  /\ (forall container podSpec cs k,
         Load w (newK8s namespace) container podSpec
         = {| calls := cs; outcome := Returned (k, None) |} ->
         RegistryAddress k = "" -> no_pull_secret podSpec)
  /\ (forall container podSpec cs k registryAddress image,
         Load w (newK8s namespace) container podSpec
         = {| calls := cs; outcome := Returned (k, None) |} ->
         registryAddress
         = (if String.eqb (RegistryAddress k) ""
            then "https://registry-1.docker.io/" else RegistryAddress k) ->
         image
         = (if String.eqb (RegistryName k) "" then Image k
            else strings.TrimLeft (strings_trimLeftUnicode w) (Image k)
                                  (RegistryName k ++ "/")) ->
         isDockerHub registryAddress = true ->
         strings.Count image "/" = 0 ->
         let blob := GetImageBlob w registryAddress (RegistryUsername k)
                                  (RegistryPassword k) ("library/" ++ image) in
         GetEntrypointCmd w namespace container podSpec
         = {| calls := (cs ++ calls blob)%list; outcome := outcome blob |})
  /\ GetEntrypointCmd w namespace {| corev1.Image := "redis:6" |}
                      podWithoutSecrets
     = GetImageBlob w "https://registry-1.docker.io/" "" "" "library/redis:6".
Proof.
  assert (Hdefault : forall container podSpec,
      no_pull_secret podSpec ->
      GetEntrypointCmd w namespace container podSpec
      = GetImageBlob w "https://registry-1.docker.io/" "" ""
          (if Nat.eqb (strings.Count (corev1.Image container) "/") 0
           then "library/" ++ corev1.Image container
           else corev1.Image container)).
  { intros container podSpec Hno. unfold GetEntrypointCmd.
    destruct (Load_no_pull_secret (newK8s namespace) container podSpec Hno)
      as (secretName & -> & _).
    rewrite bind_ret. cbv beta iota zeta.
    cbn [set_ImagePullSecrets set_Image newK8s RegistryName RegistryAddress
         RegistryUsername RegistryPassword Image String.eqb negb].
    change (isDockerHub "https://registry-1.docker.io/") with true.
    cbn [andb].
    destruct (Nat.eqb (strings.Count (corev1.Image container) "/") 0);
      reflexivity. }
  split; [exact Hdefault|].
  split; [exact (Load_unresolved_address namespace)|].
  split; [|exact (Hdefault {| corev1.Image := "redis:6" |} podWithoutSecrets I)].
  intros container podSpec cs k registryAddress image HLoad -> -> Hhub Hcount.
  unfold GetEntrypointCmd, bind. rewrite HLoad.
  cbv beta iota zeta. cbn [outcome calls].
  destruct (String.eqb (RegistryName k) ""); cbn [negb].
  - rewrite Hhub, Hcount. reflexivity.
  - cbn [set_Image RegistryAddress Image RegistryUsername RegistryPassword].
    rewrite Hhub, Hcount. reflexivity.
Qed.

End EntrypointProperties.

Lemma GetEntrypointCmd_default_registry_and_library_prefix_witness :
  GetEntrypointCmd (sampleWorld "" dockerHubCreds) "default"
                   {| corev1.Image := "alpine:3" |} (podWithSecret "regcred")
  = {| calls :=
         [SecretsGet "default" "regcred";
          RegistryNew "https://index.docker.io/v1/" "bot" "s3cret";
          ManifestV2 "library/alpine" "3";
          DownloadBlob "library/alpine" "sha256:0"; ReadAll; Close];
       outcome :=
         Returned (Some ["/docker-entrypoint.sh"],
                   Some ["nginx"; "-g"; "daemon off;"], None) |}.
Proof.
  exact (proj1 (proj2 (proj2
           (GetEntrypointCmd_default_registry_and_library_prefix
              (sampleWorld "" dockerHubCreds) "default")))
           {| corev1.Image := "alpine:3" |} (podWithSecret "regcred")
           [SecretsGet "default" "regcred"]
           {| Namespace := "default"; ImagePullSecrets := "regcred";
              RegistryAddress := "https://index.docker.io/v1/";
              RegistryName := "https://index.docker.io/v1/";
              RegistryUsername := "bot"; RegistryPassword := "s3cret";
              Image := "alpine:3" |}
           "https://index.docker.io/v1/" "alpine:3"
           eq_refl eq_refl eq_refl eq_refl eq_refl).
Defined.

(** C1: the registry name is removed with [strings.TrimLeft], which takes
    its second argument for a set of characters.  Behind the prefix it goes
    on removing characters of the registry name, and it removes them from
    images that do not start with the prefix: with the registry
    [registry.example.com] the image [registry.example.com/myapp:1] is
    looked up as [:1] and [redis:6] as [dis:6]; with the Docker Hub pull
    secret [redis:6] becomes [6] and loses its tag. *)
Theorem TrimLeft_removes_more_than_the_prefix :
  (forall trimLeftUnicode,
      strings.TrimLeft trimLeftUnicode "registry.example.com/myapp:1"
                       ("registry.example.com" ++ "/") = ":1")
  /\ (forall trimLeftUnicode,
         strings.TrimLeft trimLeftUnicode "redis:6"
                          ("registry.example.com" ++ "/") = "dis:6")
  /\ GetEntrypointCmd (sampleWorld "" privateCreds) "default"
        {| corev1.Image := "registry.example.com/myapp:1" |}
        (podWithSecret "regcred")
     = {| calls :=
            [SecretsGet "default" "regcred";
             RegistryNew "https://registry.example.com" "bot" "s3cret";
             ManifestV2 "" "1"; DownloadBlob "" "sha256:0"; ReadAll; Close];
          outcome :=
            Returned (Some ["/docker-entrypoint.sh"],
                      Some ["nginx"; "-g"; "daemon off;"], None) |}
  /\ GetEntrypointCmd (sampleWorld "" dockerHubCreds) "default"
        {| corev1.Image := "redis:6" |} (podWithSecret "regcred")
     = {| calls := [SecretsGet "default" "regcred"];
          outcome :=
            Returned (None, None,
                      Some "Cannot find tag for image library/6") |}.
Proof. repeat split; reflexivity. Qed.

(** ** Further properties of ParseContainerImage *)

Lemma occurs_dec (c : ascii) (s : string) : {occurs c s} + {~ occurs c s}.
Proof. unfold occurs. apply in_dec, ascii_dec. Qed.

Lemma ParseContainerImage_no_colon (image : string) :
  ~ occurs ":" image ->
  ParseContainerImage image
  = ("", "", Some ("Cannot find tag for image " ++ image)).
Proof.
  intros Hno. unfold ParseContainerImage. simpl.
  rewrite Index_absent by exact Hno. reflexivity.
Qed.

(** X1: a name and a tag that [ParseContainerImage] returns without error
    put the image string together again, with one [':'] between them, and
    the name holds no [':']. *)
Theorem ParseContainerImage_round_trip (image name tag : string) :
  ParseContainerImage image = (name, tag, None) ->
  image = name ++ ":" ++ tag /\ ~ occurs ":" name.
Proof.
  intros Hparse. destruct (occurs_dec ":" image) as [Hin|Hno].
  - destruct (split_at_first ":" image Hin) as (name' & tag' & -> & Hno).
    change (String ":" tag') with (":" ++ tag') in Hparse.
    rewrite (ParseContainerImage_name_tag name' tag' Hno) in Hparse.
    inversion Hparse; subst. split; [reflexivity | exact Hno].
  - rewrite (ParseContainerImage_no_colon image Hno) in Hparse.
    discriminate Hparse.
Qed.

Lemma ParseContainerImage_round_trip_witness :
  "gcr.io/proj/app:v1:beta" = "gcr.io/proj/app" ++ ":" ++ "v1:beta"
  /\ ~ occurs ":" "gcr.io/proj/app".
Proof.
  exact (ParseContainerImage_round_trip "gcr.io/proj/app:v1:beta"
           "gcr.io/proj/app" "v1:beta" eq_refl).
Defined.

(** X2: [ParseContainerImage] returns an error exactly for the image
    strings that hold no [':']. *)
Theorem ParseContainerImage_error_iff (image : string) :
  (exists err, snd (ParseContainerImage image) = Some err)
  <-> ~ occurs ":" image.
Proof.
  split.
  - intros [err Herr] Hin.
    destruct (split_at_first ":" image Hin) as (name & tag & -> & Hno).
    change (String ":" tag) with (":" ++ tag) in Herr.
    rewrite (ParseContainerImage_name_tag name tag Hno) in Herr.
    discriminate Herr.
  - intros Hno. rewrite (ParseContainerImage_no_colon image Hno).
    eexists; reflexivity.
Qed.

(** ** Further properties of parseDockerConfig *)

(** X3: the registry address that [parseDockerConfig] derives always
    begins with [https://]: it is the selected key when the key begins so,
    and the key behind [https://] otherwise. *)
Theorem parseDockerConfig_address_https (k k' : K8s) (dockerCreds : DockerCreds) :
  parseDockerConfig k dockerCreds = Returned k' ->
  strings.HasPrefix (RegistryAddress k') "https://" = true
  /\ (strings.HasPrefix (RegistryName k') "https://" = true ->
      RegistryAddress k' = RegistryName k')
  /\ (strings.HasPrefix (RegistryName k') "https://" = false ->
      RegistryAddress k' = "https://" ++ RegistryName k').
Proof.
  unfold parseDockerConfig.
  destruct (MapKeys (Auths dockerCreds)) as [|key keys]; [discriminate|].
  cbn [set_RegistryName RegistryName].
  destruct (strings.HasPrefix key "https://") eqn:Hprefix;
    intros Heq; inversion Heq; subst k'; clear Heq;
    cbn [set_RegistryPassword set_RegistryUsername set_RegistryAddress
         set_RegistryName RegistryAddress RegistryName negb].
  - split; [exact Hprefix | split; intros H]; [reflexivity|].
    rewrite Hprefix in H. discriminate H.
  - split; [destruct key; reflexivity | split; intros H]; [|reflexivity].
    rewrite Hprefix in H. discriminate H.
Qed.

Lemma parseDockerConfig_address_https_witness :
  strings.HasPrefix
    (RegistryAddress
       (set_RegistryPassword
          (set_RegistryUsername
             (set_RegistryAddress
                (set_RegistryName (newK8s "default") "registry.example.com")
                "https://registry.example.com") "bot") "s3cret"))
    "https://" = true.
Proof.
  exact (proj1 (parseDockerConfig_address_https (newK8s "default") _
                  privateCreds eq_refl)).
Defined.

(** X4: on a credentials mapping with at least one entry
    [parseDockerConfig] does not panic; it takes the key listed first as
    registry name, the user name and the password of that very entry, and
    leaves the namespace, the secret name and the image as they were. *)
Theorem parseDockerConfig_selected_entry
        (k : K8s) (dockerCreds : DockerCreds) (key : string)
        (auth : dockerTypes.AuthConfig)
        (others : GoMap dockerTypes.AuthConfig) :
  Auths dockerCreds = (key, auth) :: others ->
  exists k',
    parseDockerConfig k dockerCreds = Returned k'
    /\ RegistryName k' = key
    /\ RegistryUsername k' = dockerTypes.Username auth
    /\ RegistryPassword k' = dockerTypes.Password auth
    /\ Namespace k' = Namespace k
    /\ ImagePullSecrets k' = ImagePullSecrets k
    /\ Image k' = Image k.
Proof.
  intros Hauths. unfold parseDockerConfig. rewrite Hauths.
  cbn [MapKeys map fst]. eexists; split; [reflexivity|].
  simpl. destruct (negb (strings.HasPrefix key "https://")); simpl;
    rewrite String.eqb_refl; repeat split.
Qed.

Lemma parseDockerConfig_selected_entry_witness :
  exists k',
    parseDockerConfig (newK8s "default") dockerHubCreds = Returned k'
    /\ RegistryName k' = "https://index.docker.io/v1/"
    /\ RegistryUsername k' = "bot"
    /\ RegistryPassword k' = "s3cret"
    /\ Namespace k' = "default"
    /\ ImagePullSecrets k' = ""
    /\ Image k' = "".
Proof.
  exact (parseDockerConfig_selected_entry (newK8s "default") dockerHubCreds
           "https://index.docker.io/v1/"
           {| dockerTypes.Username := "bot"; dockerTypes.Password := "s3cret" |}
           [] eq_refl).
Defined.

(** ** Further properties of Load *)

Lemma mapIndex_absent {V : Type} (m : GoMap V) (key : string) (zero : V) :
  absent key m -> mapIndex m key zero = zero.
Proof.
  unfold absent, MapKeys. induction m as [|[k v] m IH]; simpl; intros Hno.
  - reflexivity.
  - destruct (String.eqb_spec k key) as [Heq|Hne].
    + exfalso. apply Hno. now left.
    + apply IH. intros Hin. apply Hno. now right.
Qed.

Section LoadStages.

Context {Hub Reader : Type} (w : World Hub Reader).

(** [Load] on a pod whose first pull secret has a name: one call, and an
    outcome decided by the answers to it and by the decoder. *)
Lemma Load_named_secret (k : K8s) (container : corev1.Container)
      (podSpec : corev1.PodSpec) (first : corev1.LocalObjectReference)
      (rest : list corev1.LocalObjectReference) :
  corev1.ImagePullSecrets podSpec = first :: rest ->
  corev1.Name first <> "" ->
  Load w k container podSpec
  = {| calls := [SecretsGet (Namespace k) (corev1.Name first)];
       outcome :=
         let k0 := set_ImagePullSecrets
                     (set_Image k (corev1.Image container))
                     (corev1.Name first) in
         match secrets_Get w (Namespace k) (corev1.Name first) with
         | Err e => Returned (k0, Some ("cannot read imagePullSecrets: " ++ e))
         | Ok secret =>
             match json_Unmarshal_DockerCreds w
                     (mapIndex (corev1.Data secret)
                               corev1.DockerConfigJsonKey []) with
             | Err e =>
                 Returned (k0, Some ("cannot unmarshal docker configuration from imagePullSecrets: " ++ e))
             | Ok dockerCreds =>
                 match parseDockerConfig k0 dockerCreds with
                 | Returned k' => Returned (k', None)
                 | Panicked msg => Panicked msg
                 end
             end
         end |}.
Proof.
  intros Hsecrets Hname. unfold Load. rewrite Hsecrets.
  cbn [set_ImagePullSecrets ImagePullSecrets set_Image Namespace].
  destruct (String.eqb_spec (corev1.Name first) "") as [|_]; [contradiction|].
  cbn [negb]. unfold readDockerSecret, bind, call, ret, lift.
  cbn [outcome calls].
  destruct (secrets_Get w (Namespace k) (corev1.Name first)) as [secret|e];
    cbn [outcome calls]; [|reflexivity].
  destruct (json_Unmarshal_DockerCreds w _) as [dockerCreds|e];
    cbn [outcome calls]; [|reflexivity].
  destruct (parseDockerConfig _ dockerCreds) as [k'|msg];
    cbn [outcome calls]; reflexivity.
Qed.

Lemma Load_unnamed_secret (k : K8s) (container : corev1.Container)
      (podSpec : corev1.PodSpec) :
  no_pull_secret podSpec ->
  calls (Load w k container podSpec) = []
  /\ exists k', outcome (Load w k container podSpec) = Returned (k', None).
Proof.
  unfold no_pull_secret, Load.
  destruct (corev1.ImagePullSecrets podSpec) as [|first rest].
  - intros _. split; [reflexivity | eexists; reflexivity].
  - intros Hname. simpl. rewrite Hname. simpl.
    split; [reflexivity | eexists; reflexivity].
Qed.

(** X5: [Load] contacts nothing but the cluster, and that at most once:
    it makes no call for a pod without a named first pull secret, and
    otherwise the single call that reads the first pull secret in the
    namespace of the structure, whatever the outcome. *)
Theorem Load_single_secret_read
        (k : K8s) (container : corev1.Container) (podSpec : corev1.PodSpec) :
  (no_pull_secret podSpec -> calls (Load w k container podSpec) = [])
  /\ (forall first rest,
         corev1.ImagePullSecrets podSpec = first :: rest ->
         corev1.Name first <> "" ->
         calls (Load w k container podSpec)
         = [SecretsGet (Namespace k) (corev1.Name first)]).
Proof.
  split.
  - intros Hno. exact (proj1 (Load_unnamed_secret k container podSpec Hno)).
  - intros first rest Hsecrets Hname.
    rewrite (Load_named_secret k container podSpec first rest Hsecrets Hname).
    reflexivity.
Qed.

(** X6: an error of [Load] is the wrapped error of the secret read or of
    the decoding of the credentials, and then nothing but the image and
    the secret name has been written to the structure: the registry fields
    are as before. *)
Theorem Load_error_inversion
        (k k' : K8s) (container : corev1.Container) (podSpec : corev1.PodSpec)
        (err : string) :
  outcome (Load w k container podSpec) = Returned (k', Some err) ->
  exists first rest,
    corev1.ImagePullSecrets podSpec = first :: rest
    /\ corev1.Name first <> ""
    /\ k' = set_ImagePullSecrets (set_Image k (corev1.Image container))
                                 (corev1.Name first)
    /\ ((exists e,
            secrets_Get w (Namespace k) (corev1.Name first) = Err e
            /\ err = "cannot read imagePullSecrets: " ++ e)
        \/ (exists secret e,
               secrets_Get w (Namespace k) (corev1.Name first) = Ok secret
               /\ json_Unmarshal_DockerCreds w
                    (mapIndex (corev1.Data secret)
                              corev1.DockerConfigJsonKey []) = Err e
               /\ err = "cannot unmarshal docker configuration from imagePullSecrets: " ++ e)).
Proof.
  intros Hload.
  destruct (corev1.ImagePullSecrets podSpec) as [|first rest] eqn:Hsecrets.
  { destruct (Load_unnamed_secret k container podSpec) as (_ & k1 & Hret).
    - unfold no_pull_secret. now rewrite Hsecrets.
    - rewrite Hret in Hload. discriminate Hload. }
  destruct (String.eqb_spec (corev1.Name first) "") as [Hname|Hname].
  { destruct (Load_unnamed_secret k container podSpec) as (_ & k1 & Hret).
    - unfold no_pull_secret. now rewrite Hsecrets.
    - rewrite Hret in Hload. discriminate Hload. }
  exists first, rest. split; [reflexivity|]. split; [exact Hname|].
  rewrite (Load_named_secret k container podSpec first rest Hsecrets Hname)
    in Hload.
  cbn [outcome] in Hload. cbv zeta in Hload.
  destruct (secrets_Get w (Namespace k) (corev1.Name first)) as [secret|e].
  - destruct (json_Unmarshal_DockerCreds w _) as [dockerCreds|e] eqn:Hjson.
    + destruct (parseDockerConfig _ dockerCreds); discriminate Hload.
    + inversion Hload; subst. split; [reflexivity|].
      right. exists secret, e. repeat split. exact Hjson.
  - inversion Hload; subst. split; [reflexivity|].
    left. exists e. split; reflexivity.
Qed.

(** X7: when the cluster refuses the secret, [Load] returns that error
    behind [cannot read imagePullSecrets: ] and does not decode
    anything. *)
Theorem Load_secret_read_failure
        (k : K8s) (container : corev1.Container) (podSpec : corev1.PodSpec)
        (first : corev1.LocalObjectReference)
        (rest : list corev1.LocalObjectReference) (e : string) :
  corev1.ImagePullSecrets podSpec = first :: rest ->
  corev1.Name first <> "" ->
  secrets_Get w (Namespace k) (corev1.Name first) = Err e ->
  Load w k container podSpec
  = {| calls := [SecretsGet (Namespace k) (corev1.Name first)];
       outcome :=
         Returned (set_ImagePullSecrets (set_Image k (corev1.Image container))
                                        (corev1.Name first),
                   Some ("cannot read imagePullSecrets: " ++ e)) |}.
Proof.
  intros Hsecrets Hname Hget.
  rewrite (Load_named_secret k container podSpec first rest Hsecrets Hname).
  rewrite Hget. reflexivity.
Qed.

(** X8: a secret without the [.dockerconfigjson] key hands the decoder the
    empty byte sequence; when the decoder rejects it, [Load] returns the
    decoding error and resolves no registry. *)
Theorem Load_secret_without_docker_config
        (k : K8s) (container : corev1.Container) (podSpec : corev1.PodSpec)
        (first : corev1.LocalObjectReference)
        (rest : list corev1.LocalObjectReference)
        (secret : corev1.Secret) (e : string) :
  corev1.ImagePullSecrets podSpec = first :: rest ->
  corev1.Name first <> "" ->
  secrets_Get w (Namespace k) (corev1.Name first) = Ok secret ->
  absent corev1.DockerConfigJsonKey (corev1.Data secret) ->
  json_Unmarshal_DockerCreds w [] = Err e ->
  Load w k container podSpec
  = {| calls := [SecretsGet (Namespace k) (corev1.Name first)];
       outcome :=
         Returned (set_ImagePullSecrets (set_Image k (corev1.Image container))
                                        (corev1.Name first),
                   Some ("cannot unmarshal docker configuration from imagePullSecrets: " ++ e)) |}.
Proof.
  intros Hsecrets Hname Hget Habsent Hjson.
  rewrite (Load_named_secret k container podSpec first rest Hsecrets Hname).
  rewrite Hget, (mapIndex_absent _ _ _ Habsent), Hjson. reflexivity.
Qed.

(** X9: [Load] ends in the index-out-of-range panic in one situation
    only: the first pull secret has a name, the cluster delivers it, its
    credentials document decodes, and the decoded mapping has no entry. *)
Theorem Load_panics_iff
        (k : K8s) (container : corev1.Container) (podSpec : corev1.PodSpec) :
  outcome (Load w k container podSpec)
  = Panicked "runtime error: index out of range"
  <-> exists first rest secret dockerCreds,
      corev1.ImagePullSecrets podSpec = first :: rest
      /\ corev1.Name first <> ""
      /\ secrets_Get w (Namespace k) (corev1.Name first) = Ok secret
      /\ json_Unmarshal_DockerCreds w
           (mapIndex (corev1.Data secret) corev1.DockerConfigJsonKey [])
         = Ok dockerCreds
      /\ Auths dockerCreds = [].
Proof.
  split.
  - intros Hload.
    destruct (corev1.ImagePullSecrets podSpec) as [|first rest] eqn:Hsecrets.
    { destruct (Load_unnamed_secret k container podSpec) as (_ & k1 & Hret).
      - unfold no_pull_secret. now rewrite Hsecrets.
      - rewrite Hret in Hload. discriminate Hload. }
    destruct (String.eqb_spec (corev1.Name first) "") as [Hname|Hname].
    { destruct (Load_unnamed_secret k container podSpec) as (_ & k1 & Hret).
      - unfold no_pull_secret. now rewrite Hsecrets.
      - rewrite Hret in Hload. discriminate Hload. }
    rewrite (Load_named_secret k container podSpec first rest Hsecrets Hname)
      in Hload.
    cbn [outcome] in Hload. cbv zeta in Hload.
    destruct (secrets_Get w (Namespace k) (corev1.Name first))
      as [secret|e] eqn:Hget; [|discriminate Hload].
    destruct (json_Unmarshal_DockerCreds w _) as [dockerCreds|e] eqn:Hjson;
      [|discriminate Hload].
    exists first, rest, secret, dockerCreds.
    split; [reflexivity|]. split; [exact Hname|].
    split; [exact Hget|]. split; [exact Hjson|].
    unfold parseDockerConfig in Hload.
    destruct (Auths dockerCreds) as [|entry entries]; [reflexivity|].
    discriminate Hload.
  - intros (first & rest & secret & dockerCreds
            & Hsecrets & Hname & Hget & Hjson & Hempty).
    rewrite (Load_named_secret k container podSpec first rest Hsecrets Hname).
    cbn [outcome]. cbv zeta. rewrite Hget, Hjson.
    unfold parseDockerConfig. rewrite Hempty. reflexivity.
Qed.

End LoadStages.

Section LoadSuccess.

Context {Hub Reader : Type} (w : World Hub Reader).

(** X10: when [Load] returns without error on a pod whose first pull
    secret has a name, the registry it resolved is an entry of the decoded
    credentials: the registry name is the key listed first, user name and
    password are those of that entry, the address begins with [https://],
    and the namespace is untouched. *)
Theorem Load_success_inversion
        (k k' : K8s) (container : corev1.Container) (podSpec : corev1.PodSpec)
        (first : corev1.LocalObjectReference)
        (rest : list corev1.LocalObjectReference) :
  corev1.ImagePullSecrets podSpec = first :: rest ->
  corev1.Name first <> "" ->
  outcome (Load w k container podSpec) = Returned (k', None) ->
  exists secret dockerCreds key auth others,
    secrets_Get w (Namespace k) (corev1.Name first) = Ok secret
    /\ json_Unmarshal_DockerCreds w
         (mapIndex (corev1.Data secret) corev1.DockerConfigJsonKey [])
       = Ok dockerCreds
    /\ Auths dockerCreds = (key, auth) :: others
    /\ RegistryName k' = key
    /\ RegistryUsername k' = dockerTypes.Username auth
    /\ RegistryPassword k' = dockerTypes.Password auth
    /\ strings.HasPrefix (RegistryAddress k') "https://" = true
    /\ ImagePullSecrets k' = corev1.Name first
    /\ Image k' = corev1.Image container
    /\ Namespace k' = Namespace k.
Proof.
  intros Hsecrets Hname Hload.
  rewrite (Load_named_secret w k container podSpec first rest Hsecrets Hname)
    in Hload.
  cbn [outcome] in Hload. cbv zeta in Hload.
  destruct (secrets_Get w (Namespace k) (corev1.Name first))
    as [secret|e] eqn:Hget; [|discriminate Hload].
  destruct (json_Unmarshal_DockerCreds w _) as [dockerCreds|e] eqn:Hjson;
    [|discriminate Hload].
  destruct (Auths dockerCreds) as [|[key auth] others] eqn:Hauths.
  { unfold parseDockerConfig in Hload. rewrite Hauths in Hload.
    discriminate Hload. }
  exists secret, dockerCreds, key, auth, others.
  do 3 (split; [first [assumption | reflexivity]|]).
  unfold parseDockerConfig in Hload. rewrite Hauths in Hload.
  cbn [MapKeys map fst] in Hload. simpl in Hload.
  destruct (strings.HasPrefix key "https://") eqn:Hprefix;
    simpl in Hload; rewrite String.eqb_refl in Hload;
    inversion Hload; subst k'; simpl;
    repeat split; try reflexivity; try exact Hprefix.
  destruct key; reflexivity.
Qed.

End LoadSuccess.

Lemma Load_single_secret_read_witness :
  calls (Load (sampleWorld "" emptyCreds) (newK8s "team-a")
              {| corev1.Image := "nginx:1.19" |} (podWithSecret "regcred"))
  = [SecretsGet "team-a" "regcred"].
Proof.
  refine (proj2 (Load_single_secret_read (sampleWorld "" emptyCreds)
                   (newK8s "team-a") {| corev1.Image := "nginx:1.19" |}
                   (podWithSecret "regcred"))
                {| corev1.Name := "regcred" |} [] eq_refl _).
  discriminate.
Defined.

Lemma Load_error_inversion_witness :
  exists first rest,
    corev1.ImagePullSecrets (podWithSecret "regcred") = first :: rest
    /\ corev1.Name first <> "".
Proof.
  destruct (Load_error_inversion unreadableSecretWorld
              (newK8s "default")
              (set_ImagePullSecrets (set_Image (newK8s "default") "nginx:1.19")
                                    "regcred")
              {| corev1.Image := "nginx:1.19" |} (podWithSecret "regcred")
              "cannot read imagePullSecrets: secret not found"
              eq_refl)
    as (first & rest & Hsecrets & Hname & _).
  exists first, rest. split; assumption.
Defined.

Lemma Load_secret_read_failure_witness :
  Load unreadableSecretWorld
       (newK8s "default") {| corev1.Image := "nginx:1.19" |}
       (podWithSecret "regcred")
  = {| calls := [SecretsGet "default" "regcred"];
       outcome :=
         Returned (set_ImagePullSecrets
                     (set_Image (newK8s "default") "nginx:1.19") "regcred",
                   Some "cannot read imagePullSecrets: secret not found") |}.
Proof.
  refine (Load_secret_read_failure unreadableSecretWorld (newK8s "default")
            {| corev1.Image := "nginx:1.19" |} (podWithSecret "regcred")
            {| corev1.Name := "regcred" |} [] "secret not found"
            eq_refl _ eq_refl).
  discriminate.
Defined.

Lemma Load_secret_without_docker_config_witness :
  outcome
    (Load legacySecretWorld (newK8s "default") {| corev1.Image := "nginx:1.19" |}
          (podWithSecret "regcred"))
  = Returned (set_ImagePullSecrets
                (set_Image (newK8s "default") "nginx:1.19") "regcred",
              Some "cannot unmarshal docker configuration from imagePullSecrets: unexpected end of JSON input").
Proof.
  refine (f_equal (@outcome _)
            (Load_secret_without_docker_config legacySecretWorld
               (newK8s "default")
               {| corev1.Image := "nginx:1.19" |} (podWithSecret "regcred")
               {| corev1.Name := "regcred" |} []
               {| corev1.Data := [(".dockercfg", [])] |}
               "unexpected end of JSON input" eq_refl _ eq_refl _ eq_refl)).
  - discriminate.
  - unfold absent; simpl. intros [H|[]]. discriminate H.
Defined.

Lemma Load_success_inversion_witness :
  exists secret dockerCreds key auth others,
    secrets_Get (sampleWorld "" privateCreds) "default" "regcred" = Ok secret
    /\ json_Unmarshal_DockerCreds (sampleWorld "" privateCreds)
         (mapIndex (corev1.Data secret) corev1.DockerConfigJsonKey [])
       = Ok dockerCreds
    /\ Auths dockerCreds = (key, auth) :: others
    /\ "registry.example.com" = key
    /\ "bot" = dockerTypes.Username auth
    /\ "s3cret" = dockerTypes.Password auth.
Proof.
  assert (Hname : corev1.Name {| corev1.Name := "regcred" |} <> "")
    by discriminate.
  destruct (Load_success_inversion (sampleWorld "" privateCreds)
              (newK8s "default")
              {| Namespace := "default"; ImagePullSecrets := "regcred";
                 RegistryAddress := "https://registry.example.com";
                 RegistryName := "registry.example.com";
                 RegistryUsername := "bot"; RegistryPassword := "s3cret";
                 Image := "nginx:1.19" |}
              {| corev1.Image := "nginx:1.19" |} (podWithSecret "regcred")
              {| corev1.Name := "regcred" |} [] eq_refl Hname eq_refl)
    as (secret & dockerCreds & key & auth & others
        & Hget & Hjson & Hauths & Hkey & Huser & Hpass & _).
  exists secret, dockerCreds, key, auth, others.
  repeat split; assumption.
Defined.

(** ** Further properties of GetImageBlob *)

Section BlobStages.

Context {Hub Reader : Type} (w : World Hub Reader).

Local Ltac stage :=
  cbv beta iota zeta delta [bind call ret defer outcome calls app].

(** The runs of [GetImageBlob] on an image with a tag, stage by stage. *)
Lemma GetImageBlob_stages (url username password image name tag : string) :
  ParseContainerImage image = (name, tag, None) ->
  let create := client_call w url username password in
  let manifest_call := ManifestV2 name tag in
  let failed (cs : list Event) (msg : string) : Run (slice * slice * error) :=
    {| calls := cs; outcome := Returned (None, None, Some msg) |} in
  GetImageBlob w url username password image
  = match client_answer w url username password with
    | Err e => failed [create] ("cannot create client for registry: " ++ e)
    | Ok hub =>
        match hub_ManifestV2 w hub name tag with
        | Err e =>
            failed [create; manifest_call]
                   ("cannot download manifest for image: " ++ e)
        | Ok manifest =>
            let digest := schema2.ConfigDigest manifest in
            let blob_call := DownloadBlob name digest in
            match hub_DownloadBlob w hub name digest with
            | BlobFailed None e =>
                failed [create; manifest_call; blob_call]
                       ("cannot download blob: " ++ e)
            | BlobFailed (Some _) e =>
                failed [create; manifest_call; blob_call; Close]
                       ("cannot download blob: " ++ e)
            | BlobStream reader =>
                match ioutil_ReadAll w reader with
                | Err e =>
                    failed [create; manifest_call; blob_call; ReadAll; Close]
                           ("cannot read blob: " ++ e)
                | Ok b =>
                    match json_Unmarshal_Image w b with
                    | Err e =>
                        failed
                          [create; manifest_call; blob_call; ReadAll; Close]
                          ("cannot unmarshal BlobResponse JSON: " ++ e)
                    | Ok imageMetadata =>
                        {| calls :=
                             [create; manifest_call; blob_call; ReadAll; Close];
                           outcome :=
                             Returned
                               (imagev1.Entrypoint (imagev1.Config imageMetadata),
                                imagev1.Cmd (imagev1.Config imageMetadata),
                                None) |}
                    end
                end
            end
        end
    end.
Proof.
  intros Hparse create manifest_call failed.
  subst create manifest_call failed.
  unfold GetImageBlob, client_call, client_answer. rewrite Hparse.
  destruct (String.eqb _ "true").
  - destruct (registry_NewInsecure w url username password) as [hub|e];
      [|reflexivity].
    stage.
    destruct (hub_ManifestV2 w hub name tag) as [manifest|e]; [|reflexivity].
    stage.
    destruct (hub_DownloadBlob w hub name _) as [reader|[reader|] e];
      [|reflexivity..].
    stage.
    destruct (ioutil_ReadAll w reader) as [b|e]; [|reflexivity].
    destruct (json_Unmarshal_Image w b) as [imageMetadata|e]; reflexivity.
  - destruct (registry_New w url username password) as [hub|e];
      [|reflexivity].
    stage.
    destruct (hub_ManifestV2 w hub name tag) as [manifest|e]; [|reflexivity].
    stage.
    destruct (hub_DownloadBlob w hub name _) as [reader|[reader|] e];
      [|reflexivity..].
    stage.
    destruct (ioutil_ReadAll w reader) as [b|e]; [|reflexivity].
    destruct (json_Unmarshal_Image w b) as [imageMetadata|e]; reflexivity.
Qed.

End BlobStages.

Section BlobExtras.

Context {Hub Reader : Type} (w : World Hub Reader).

Lemma ParseContainerImage_cases (image : string) :
  (~ occurs ":" image
   /\ ParseContainerImage image
      = ("", "", Some ("Cannot find tag for image " ++ image)))
  \/ (exists name tag,
         ~ occurs ":" name /\ image = name ++ ":" ++ tag
         /\ ParseContainerImage image = (name, tag, None)).
Proof.
  destruct (occurs_dec ":" image) as [Hin|Hno].
  - right. destruct (split_at_first ":" image Hin) as (name & tag & -> & Hno).
    exists name, tag. split; [exact Hno|]. split; [reflexivity|].
    exact (ParseContainerImage_name_tag name tag Hno).
  - left. split; [exact Hno | exact (ParseContainerImage_no_colon image Hno)].
Qed.

Lemma GetImageBlob_no_colon (url username password image : string) :
  ~ occurs ":" image ->
  GetImageBlob w url username password image
  = ret (None, None, Some ("Cannot find tag for image " ++ image)).
Proof.
  intros Hno. unfold GetImageBlob.
  rewrite (ParseContainerImage_no_colon image Hno). reflexivity.
Qed.


(** The five runs of [GetImageBlob] that reach the registry. *)
Lemma GetImageBlob_runs (url username password image name tag : string) :
  ParseContainerImage image = (name, tag, None) ->
  exists digest,
    In (calls (GetImageBlob w url username password image))
       (let create := client_call w url username password in
        let manifest_call := ManifestV2 name tag in
        let blob_call := DownloadBlob name digest in
        [[create];
         [create; manifest_call];
         [create; manifest_call; blob_call];
         [create; manifest_call; blob_call; Close];
         [create; manifest_call; blob_call; ReadAll; Close]]).
Proof.
  intros Hparse.
  pose proof (GetImageBlob_stages w url username password image name tag Hparse)
    as Hstages.
  cbv zeta in Hstages. rewrite Hstages. clear Hstages. cbv zeta.
  destruct (client_answer w url username password) as [hub|e];
    [|exists ""; simpl; tauto].
  destruct (hub_ManifestV2 w hub name tag) as [manifest|e];
    [|exists ""; simpl; tauto].
  exists (schema2.ConfigDigest manifest).
  destruct (hub_DownloadBlob w hub name _) as [reader|[reader|] e];
    [|simpl; tauto..].
  destruct (ioutil_ReadAll w reader) as [b|e]; [|simpl; tauto].
  destruct (json_Unmarshal_Image w b) as [imageMetadata|e]; simpl; tauto.
Qed.

(** X11: for an image string without [':'] [GetImageBlob] returns the
    missing-tag error at once: it creates no client and contacts no
    registry. *)
Theorem GetImageBlob_untagged_no_calls (url username password image : string) :
  ~ occurs ":" image ->
  calls (GetImageBlob w url username password image) = []
  /\ outcome (GetImageBlob w url username password image)
     = Returned (None, None, Some ("Cannot find tag for image " ++ image)).
Proof.
  intros Hno. rewrite (GetImageBlob_no_colon url username password image Hno).
  split; reflexivity.
Qed.

(** X12: for an image that parses into a name and a tag, the calls of
    [GetImageBlob] are the stages up to the first one that fails, and no
    more: the client alone when its creation fails; the client and the
    manifest of that name and tag when the manifest fails; then the blob
    of that name under the digest of the manifest, followed by [Close]
    when the failed download came with a stream; and with a stream, the
    read and the close. *)
Theorem GetImageBlob_protocol (url username password image name tag : string) :
  ParseContainerImage image = (name, tag, None) ->
  let cs := calls (GetImageBlob w url username password image) in
  let create := client_call w url username password in
  let manifest_call := ManifestV2 name tag in
  (forall e, client_answer w url username password = Err e -> cs = [create])
  /\ (forall hub,
         client_answer w url username password = Ok hub ->
         (forall e, hub_ManifestV2 w hub name tag = Err e ->
                    cs = [create; manifest_call])
         /\ (forall manifest,
                hub_ManifestV2 w hub name tag = Ok manifest ->
                let digest := schema2.ConfigDigest manifest in
                let blob_call := DownloadBlob name digest in
                (forall e,
                    hub_DownloadBlob w hub name digest = BlobFailed None e ->
                    cs = [create; manifest_call; blob_call])
                /\ (forall reader e,
                       hub_DownloadBlob w hub name digest
                       = BlobFailed (Some reader) e ->
                       cs = [create; manifest_call; blob_call; Close])
                /\ (forall reader,
                       hub_DownloadBlob w hub name digest = BlobStream reader ->
                       cs = [create; manifest_call; blob_call; ReadAll; Close]))).
Proof.
  intros Hparse. cbv zeta.
  pose proof (GetImageBlob_stages w url username password image name tag Hparse)
    as Hstages.
  cbv zeta in Hstages. rewrite Hstages. clear Hstages.
  split.
  { intros e Hclient. rewrite Hclient. reflexivity. }
  intros hub Hclient. rewrite Hclient. split.
  { intros e Hmanifest. rewrite Hmanifest. reflexivity. }
  intros manifest Hmanifest. rewrite Hmanifest. split; [|split].
  - intros e Hblob. rewrite Hblob. reflexivity.
  - intros reader e Hblob. rewrite Hblob. reflexivity.
  - intros reader Hblob. rewrite Hblob.
    destruct (ioutil_ReadAll w reader) as [b|e]; [|reflexivity].
    destruct (json_Unmarshal_Image w b); reflexivity.
Qed.

(** X13: a blob stream that is read is closed, and the closing happens
    once, as the last call of the run. *)
Theorem GetImageBlob_stream_closed (url username password image : string) :
  let cs := calls (GetImageBlob w url username password image) in
  (In ReadAll cs -> In Close cs)
  /\ (In Close cs -> exists before, cs = (before ++ [Close])%list
                                    /\ ~ In Close before).
Proof.
  cbv zeta.
  destruct (ParseContainerImage_cases image)
    as [[Hno _]|(name & tag & _ & _ & Hparse)].
  - rewrite (GetImageBlob_no_colon url username password image Hno).
    split; intros [].
  - destruct (GetImageBlob_runs url username password image name tag Hparse)
      as [digest Hin].
    cbv zeta in Hin. unfold client_call in Hin.
    destruct (String.eqb _ "true");
      simpl in Hin;
      destruct Hin as [H|[H|[H|[H|[H|[]]]]]]; rewrite <- H; clear H;
        (split;
         [ simpl; intuition discriminate
         | intros Hclose;
           first
             [ exfalso; simpl in Hclose; intuition discriminate
             | eexists [_; _; _]; split;
               [reflexivity | simpl; intuition discriminate]
             | eexists [_; _; _; _]; split;
               [reflexivity | simpl; intuition discriminate] ]]).
Qed.

End BlobExtras.

Section BlobOutcomes.

Context {Hub Reader : Type} (w : World Hub Reader).

(** X14: a stream that the registry hands out is closed at the end of the
    run, whether it comes alone or together with a download error. *)
Theorem GetImageBlob_closes_stream_handed_out
        (url username password image name tag : string)
        (hub : Hub) (manifest : schema2.Manifest) (reader : Reader) :
  ParseContainerImage image = (name, tag, None) ->
  client_answer w url username password = Ok hub ->
  hub_ManifestV2 w hub name tag = Ok manifest ->
  (hub_DownloadBlob w hub name (schema2.ConfigDigest manifest)
   = BlobStream reader
   \/ exists e, hub_DownloadBlob w hub name (schema2.ConfigDigest manifest)
                = BlobFailed (Some reader) e) ->
  last (calls (GetImageBlob w url username password image))
       (client_call w url username password) = Close.
Proof.
  intros Hparse Hclient Hmanifest Hblob.
  pose proof (GetImageBlob_stages w url username password image name tag Hparse)
    as Hstages.
  cbv zeta in Hstages. rewrite Hstages, Hclient, Hmanifest. clear Hstages.
  destruct Hblob as [Hblob|[e Hblob]]; rewrite Hblob; [|reflexivity].
  destruct (ioutil_ReadAll w reader) as [b|e]; [|reflexivity].
  destruct (json_Unmarshal_Image w b); reflexivity.
Qed.


(** X16: when the blob download fails, [GetImageBlob] returns the error
    behind [cannot download blob: ] with no entrypoint and no command; it
    does not read anything, and it closes a stream exactly when one came
    with the error. *)
Theorem GetImageBlob_blob_download_failure
        (url username password image name tag : string)
        (hub : Hub) (manifest : schema2.Manifest)
        (reader : option Reader) (e : string) :
  ParseContainerImage image = (name, tag, None) ->
  client_answer w url username password = Ok hub ->
  hub_ManifestV2 w hub name tag = Ok manifest ->
  hub_DownloadBlob w hub name (schema2.ConfigDigest manifest)
  = BlobFailed reader e ->
  let run := GetImageBlob w url username password image in
  outcome run = Returned (None, None, Some ("cannot download blob: " ++ e))
  /\ ~ In ReadAll (calls run)
  /\ (In Close (calls run) <-> reader <> None).
Proof.
  intros Hparse Hclient Hmanifest Hblob. cbv zeta.
  pose proof (GetImageBlob_stages w url username password image name tag Hparse)
    as Hstages.
  cbv zeta in Hstages. rewrite Hstages, Hclient, Hmanifest, Hblob.
  clear Hstages. unfold client_call.
  destruct (String.eqb _ "true"); destruct reader as [reader|]; simpl;
    (split; [reflexivity|]); split;
      try (intros H; intuition discriminate);
      split; intros H; try discriminate; try tauto;
        try (exfalso; intuition discriminate).
Qed.

(** X17: a result without error comes from a complete run: client,
    manifest, blob, read and close have all happened, in this order, and
    the two sequences are the [Entrypoint] and the [Cmd] of the decoded
    image configuration, nil where the configuration has none. *)
Theorem GetImageBlob_success_inversion
        (url username password image : string) (entrypoint cmd : slice) :
  outcome (GetImageBlob w url username password image)
  = Returned (entrypoint, cmd, None) ->
  exists name tag hub manifest reader b imageMetadata,
    ParseContainerImage image = (name, tag, None)
    /\ client_answer w url username password = Ok hub
    /\ hub_ManifestV2 w hub name tag = Ok manifest
    /\ hub_DownloadBlob w hub name (schema2.ConfigDigest manifest)
       = BlobStream reader
    /\ ioutil_ReadAll w reader = Ok b
    /\ json_Unmarshal_Image w b = Ok imageMetadata
    /\ entrypoint = imagev1.Entrypoint (imagev1.Config imageMetadata)
    /\ cmd = imagev1.Cmd (imagev1.Config imageMetadata)
    /\ calls (GetImageBlob w url username password image)
       = [client_call w url username password; ManifestV2 name tag;
          DownloadBlob name (schema2.ConfigDigest manifest); ReadAll; Close].
Proof.
  intros Hout.
  destruct (ParseContainerImage_cases image)
    as [[Hno _]|(name & tag & _ & _ & Hparse)].
  { rewrite (GetImageBlob_no_colon w url username password image Hno) in Hout.
    discriminate Hout. }
  pose proof (GetImageBlob_stages w url username password image name tag Hparse)
    as Hstages.
  cbv zeta in Hstages. rewrite Hstages in Hout |- *. clear Hstages.
  destruct (client_answer w url username password) as [hub|e] eqn:Hclient;
    [|discriminate Hout].
  destruct (hub_ManifestV2 w hub name tag) as [manifest|e] eqn:Hmanifest;
    [|discriminate Hout].
  destruct (hub_DownloadBlob w hub name _) as [reader|[reader|] e] eqn:Hblob;
    [|discriminate Hout..].
  destruct (ioutil_ReadAll w reader) as [b|e] eqn:Hread; [|discriminate Hout].
  destruct (json_Unmarshal_Image w b) as [imageMetadata|e] eqn:Hjson;
    [|discriminate Hout].
  inversion Hout; subst.
  exists name, tag, hub, manifest, reader, b, imageMetadata.
  repeat split; assumption.
Qed.

End BlobOutcomes.

Lemma GetImageBlob_untagged_no_calls_witness :
  calls (GetImageBlob (sampleWorld "" privateCreds)
                      "https://registry-1.docker.io/" "" "" "library/nginx")
  = [].
Proof.
  refine (proj1 (GetImageBlob_untagged_no_calls (sampleWorld "" privateCreds)
                   "https://registry-1.docker.io/" "" "" "library/nginx" _)).
  unfold occurs; simpl; intros H.
  repeat (destruct H as [H|H]; [discriminate H|]). exact H.
Defined.

Lemma GetImageBlob_stream_closed_witness :
  In Close (calls (GetImageBlob (sampleWorld "" privateCreds)
                     "https://registry-1.docker.io/" "" "" "library/nginx:1.19")).
Proof.
  refine (proj1 (GetImageBlob_stream_closed (sampleWorld "" privateCreds)
                   "https://registry-1.docker.io/" "" "" "library/nginx:1.19")
                _).
  simpl; tauto.
Defined.

Lemma GetImageBlob_closes_stream_handed_out_witness :
  last (calls (GetImageBlob
                 (registryWorld (Ok tt)
                    (Ok {| schema2.ConfigDigest := "sha256:0" |})
                    (BlobFailed (Some tt) "unexpected EOF")
                    (Ok []) (Ok sampleImage))
                 "https://registry.example.com" "bot" "s3cret" "myapp:1"))
       (RegistryNew "https://registry.example.com" "bot" "s3cret")
  = Close.
Proof.
  refine (GetImageBlob_closes_stream_handed_out
            (registryWorld (Ok tt)
               (Ok {| schema2.ConfigDigest := "sha256:0" |})
               (BlobFailed (Some tt) "unexpected EOF")
               (Ok []) (Ok sampleImage))
            "https://registry.example.com" "bot" "s3cret" "myapp:1"
            "myapp" "1" tt {| schema2.ConfigDigest := "sha256:0" |} tt
            eq_refl eq_refl eq_refl _).
  right. exists "unexpected EOF". reflexivity.
Defined.


Lemma GetImageBlob_blob_download_failure_witness :
  outcome (GetImageBlob
             (registryWorld (Ok tt)
                (Ok {| schema2.ConfigDigest := "sha256:0" |})
                (BlobFailed None "connection reset") (Ok []) (Ok sampleImage))
             "https://registry.example.com" "bot" "s3cret" "myapp:1")
  = Returned (None, None, Some "cannot download blob: connection reset").
Proof.
  exact (proj1 (GetImageBlob_blob_download_failure
                  (registryWorld (Ok tt)
                     (Ok {| schema2.ConfigDigest := "sha256:0" |})
                     (BlobFailed None "connection reset")
                     (Ok []) (Ok sampleImage))
                  "https://registry.example.com" "bot" "s3cret" "myapp:1"
                  "myapp" "1" tt {| schema2.ConfigDigest := "sha256:0" |}
                  None "connection reset" eq_refl eq_refl eq_refl eq_refl)).
Defined.

Lemma GetImageBlob_success_inversion_witness :
  exists name tag,
    ParseContainerImage "library/nginx:1.19" = (name, tag, None).
Proof.
  destruct (GetImageBlob_success_inversion (sampleWorld "" privateCreds)
              "https://registry-1.docker.io/" "" "" "library/nginx:1.19"
              (Some ["/docker-entrypoint.sh"])
              (Some ["nginx"; "-g"; "daemon off;"]) eq_refl)
    as (name & tag & _ & _ & _ & _ & _ & Hparse & _).
  exists name, tag. exact Hparse.
Defined.

(** ** Further facts on the string functions *)

Lemma occurs_append (c : ascii) (a b : string) :
  occurs c (a ++ b) <-> occurs c a \/ occurs c b.
Proof.
  unfold occurs. induction a as [|d a IH]; simpl.
  - tauto.
  - rewrite IH. tauto.
Qed.

Lemma containsByte_occurs (cutset : string) (c : ascii) :
  strings.containsByte cutset c = true <-> occurs c cutset.
Proof.
  unfold occurs. induction cutset as [|d cutset IH]; simpl.
  - split; [discriminate | intros []].
  - rewrite orb_true_iff, IH, Ascii.eqb_eq. split; intros [H|H]; auto.
Qed.

Lemma append_associative (a b c : string) : (a ++ b) ++ c = a ++ b ++ c.
Proof. induction a as [|d a IH]; simpl; [reflexivity | now rewrite IH]. Qed.

Lemma isASCII_append (a b : string) :
  strings.isASCII (a ++ b) = strings.isASCII a && strings.isASCII b.
Proof.
  induction a as [|d a IH]; simpl; [reflexivity|].
  rewrite IH. apply andb_assoc.
Qed.

Lemma trimLeftASCII_run (run rest cutset : string) :
  (forall c, occurs c run -> occurs c cutset) ->
  strings.trimLeftASCII (run ++ rest) cutset
  = strings.trimLeftASCII rest cutset.
Proof.
  unfold occurs. induction run as [|d run IH]; simpl; intros Hall.
  - reflexivity.
  - assert (Hd : strings.containsByte cutset d = true)
      by (apply containsByte_occurs, Hall; now left).
    rewrite Hd. apply IH. intros c Hc. apply Hall. now right.
Qed.

Lemma trimLeftASCII_stop (rest cutset : string) :
  (forall c rest', rest = String c rest' -> ~ occurs c cutset) ->
  strings.trimLeftASCII rest cutset = rest.
Proof.
  destruct rest as [|c rest']; simpl; intros Hfirst; [reflexivity|].
  destruct (strings.containsByte cutset c) eqn:Hc; [|reflexivity].
  exfalso. apply (Hfirst c rest' eq_refl). now apply containsByte_occurs.
Qed.

(** What [trimLeftASCII] keeps is a suffix behind bytes of the cutset, and
    it does not begin with a byte of the cutset. *)
Lemma trimLeftASCII_suffix (s cutset : string) :
  exists dropped,
    s = dropped ++ strings.trimLeftASCII s cutset
    /\ (forall c, occurs c dropped -> occurs c cutset)
    /\ (forall c rest', strings.trimLeftASCII s cutset = String c rest' ->
                        ~ occurs c cutset).
Proof.
  induction s as [|d s IH]; simpl.
  - exists "". split; [reflexivity|]. split; [intros c []|discriminate].
  - destruct (strings.containsByte cutset d) eqn:Hd.
    + destruct IH as (dropped & Heq & Hall & Hfirst).
      exists (String d dropped). split; [simpl; now rewrite <- Heq|].
      split; [|exact Hfirst].
      unfold occurs; simpl. intros c [<-|Hc].
      * now apply containsByte_occurs.
      * exact (Hall c Hc).
    + exists "". split; [reflexivity|]. split; [intros c []|].
      intros c rest' Heq Hc. inversion Heq; subst.
      apply containsByte_occurs in Hc. congruence.
Qed.

Lemma Count_byte (d : ascii) (s : string) :
  strings.Count s (String d "") = 0 <-> ~ occurs d s.
Proof.
  unfold strings.Count, occurs. induction s as [|c s IH]; simpl.
  - split; [intros _ [] | reflexivity].
  - destruct (ascii_dec d c) as [<-|Hne].
    + destruct s; (split; [discriminate | intros H; exfalso; apply H; now left]).
    + rewrite IH. split.
      * intros Hno [Heq|Hin]; [congruence | contradiction].
      * intros Hno Hin. apply Hno. now right.
Qed.

Lemma Count_slash (s : string) :
  strings.Count s "/" = 0 <-> ~ occurs "/" s.
Proof. exact (Count_byte "/" s). Qed.

(** ** Further properties of the registry-name stripping *)

(** X18: with an ASCII cutset, and so with every ASCII registry name,
    [strings.TrimLeft] keeps a suffix of the image string: what it drops
    are bytes of the cutset, and what it keeps does not begin with one. *)
Theorem TrimLeft_keeps_suffix
        (trimLeftUnicode : string -> string -> string) (s cutset : string) :
  strings.isASCII cutset = true ->
  exists dropped,
    s = dropped ++ strings.TrimLeft trimLeftUnicode s cutset
    /\ (forall c, occurs c dropped -> occurs c cutset)
    /\ (forall c rest',
           strings.TrimLeft trimLeftUnicode s cutset = String c rest' ->
           ~ occurs c cutset).
Proof.
  intros Hascii. unfold strings.TrimLeft. rewrite Hascii.
  destruct (String.eqb_spec s "") as [->|Hs]; cbn [orb].
  { exists "". split; [reflexivity|]. split; [intros c []|discriminate]. }
  destruct (String.eqb_spec cutset "") as [->|Hcut]; cbn [orb].
  { exists "". split; [reflexivity|]. split; [intros c []|].
    intros c rest' _ []. }
  apply trimLeftASCII_suffix.
Qed.

Lemma TrimLeft_keeps_suffix_witness :
  exists dropped,
    "registry.example.com/myapp:1"
    = dropped ++ strings.TrimLeft (fun s _ => s)
                   "registry.example.com/myapp:1" "registry.example.com/".
Proof.
  destruct (TrimLeft_keeps_suffix (fun s _ => s)
              "registry.example.com/myapp:1" "registry.example.com/" eq_refl)
    as (dropped & Heq & _).
  exists dropped. exact Heq.
Defined.

Lemma TrimLeft_prefix_stop
      (trimLeftUnicode : string -> string -> string)
      (registryName rest : string) :
  strings.isASCII registryName = true ->
  (forall c rest', rest = String c rest' -> ~ occurs c (registryName ++ "/")) ->
  strings.TrimLeft trimLeftUnicode (registryName ++ "/" ++ rest)
                   (registryName ++ "/")
  = rest.
Proof.
  intros Hascii Hfirst. unfold strings.TrimLeft.
  rewrite isASCII_append, Hascii. cbn [strings.isASCII andb].
  replace (String.eqb (registryName ++ "/" ++ rest) "") with false
    by (destruct registryName; reflexivity).
  replace (String.eqb (registryName ++ "/") "") with false
    by (destruct registryName; reflexivity).
  cbn [orb]. change (Nat.ltb (nat_of_ascii "/") 128 && true) with true.
  cbv iota. rewrite <- append_associative.
  rewrite trimLeftASCII_run by (intros c Hc; exact Hc).
  apply trimLeftASCII_stop. exact Hfirst.
Qed.

(** X19: for an ASCII registry name [R] the stripping turns [R/rest] into
    [rest] whenever [rest] is empty or begins with a byte that occurs
    neither in [R] nor is ['/']. *)
Theorem TrimLeft_strips_registry_prefix
        (trimLeftUnicode : string -> string -> string)
        (registryName rest : string) :
  strings.isASCII registryName = true ->
  (forall c rest', rest = String c rest' -> ~ occurs c (registryName ++ "/")) ->
  strings.TrimLeft trimLeftUnicode (registryName ++ "/" ++ rest)
                   (registryName ++ "/")
  = rest.
Proof.
  intros Hascii Hfirst.
  exact (TrimLeft_prefix_stop trimLeftUnicode registryName rest Hascii Hfirst).
Qed.

Lemma TrimLeft_strips_registry_prefix_witness :
  strings.TrimLeft (fun s _ => s) ("gcr.io" ++ "/" ++ "pause:3.2")
                   ("gcr.io" ++ "/")
  = "pause:3.2".
Proof.
  refine (TrimLeft_strips_registry_prefix (fun s _ => s) "gcr.io" "pause:3.2"
            eq_refl _).
  intros c rest' Heq. inversion Heq; subst.
  unfold occurs; simpl. intros H.
  repeat (destruct H as [H|H]; [discriminate H|]). exact H.
Defined.

(** ** Further properties of GetEntrypointCmd *)

Section EntrypointExtras.

Context {Hub Reader : Type} (w : World Hub Reader).

Lemma GetEntrypointCmd_no_pull_secret (namespace : string)
      (container : corev1.Container) (podSpec : corev1.PodSpec) :
  no_pull_secret podSpec ->
  GetEntrypointCmd w namespace container podSpec
  = GetImageBlob w "https://registry-1.docker.io/" "" ""
      (if Nat.eqb (strings.Count (corev1.Image container) "/") 0
       then "library/" ++ corev1.Image container
       else corev1.Image container).
Proof.
  intros Hno. unfold GetEntrypointCmd.
  destruct (Load_no_pull_secret w (newK8s namespace) container podSpec Hno)
    as (secretName & -> & _).
  rewrite bind_ret. cbv beta iota zeta.
  cbn [set_ImagePullSecrets set_Image newK8s RegistryName RegistryAddress
       RegistryUsername RegistryPassword Image String.eqb negb].
  change (isDockerHub "https://registry-1.docker.io/") with true.
  cbn [andb].
  destruct (Nat.eqb (strings.Count (corev1.Image container) "/") 0);
    reflexivity.
Qed.

(** [GetEntrypointCmd] behind a [Load] that has returned without error. *)
Lemma GetEntrypointCmd_after_Load (namespace : string)
      (container : corev1.Container) (podSpec : corev1.PodSpec)
      (cs : list Event) (k : K8s) :
  Load w (newK8s namespace) container podSpec
  = {| calls := cs; outcome := Returned (k, None) |} ->
  let image :=
    if String.eqb (RegistryName k) "" then Image k
    else strings.TrimLeft (strings_trimLeftUnicode w) (Image k)
                          (RegistryName k ++ "/") in
  let registryAddress :=
    if String.eqb (RegistryAddress k) ""
    then "https://registry-1.docker.io/" else RegistryAddress k in
  let blob :=
    GetImageBlob w registryAddress (RegistryUsername k) (RegistryPassword k)
      (if isDockerHub registryAddress && Nat.eqb (strings.Count image "/") 0
       then "library/" ++ image else image) in
  GetEntrypointCmd w namespace container podSpec
  = {| calls := (cs ++ calls blob)%list; outcome := outcome blob |}.
Proof.
  intros HLoad. cbv zeta. unfold GetEntrypointCmd, bind. rewrite HLoad.
  cbv beta iota zeta. cbn [outcome calls].
  destruct (String.eqb (RegistryName k) ""); cbn [negb].
  - destruct (isDockerHub _ && _); reflexivity.
  - cbn [set_Image RegistryAddress Image RegistryUsername RegistryPassword].
    destruct (isDockerHub _ && _); reflexivity.
Qed.

(** X20: an error of [Load] ends [GetEntrypointCmd]: the same error comes
    back with two nil sequences, and no call follows those of [Load], so
    that no registry is contacted. *)
Theorem GetEntrypointCmd_Load_error (namespace : string)
        (container : corev1.Container) (podSpec : corev1.PodSpec)
        (k : K8s) (err : string) :
  outcome (Load w (newK8s namespace) container podSpec)
  = Returned (k, Some err) ->
  GetEntrypointCmd w namespace container podSpec
  = {| calls := calls (Load w (newK8s namespace) container podSpec);
       outcome := Returned (None, None, Some err) |}
  /\ forall e, In e (calls (GetEntrypointCmd w namespace container podSpec)) ->
               creates_client e = false.
Proof.
  intros Hout.
  assert (Heq : GetEntrypointCmd w namespace container podSpec
                = {| calls := calls (Load w (newK8s namespace) container podSpec);
                     outcome := Returned (None, None, Some err) |}).
  { unfold GetEntrypointCmd, bind. rewrite Hout. cbv beta iota zeta.
    cbn [calls outcome ret]. now rewrite app_nil_r. }
  split; [exact Heq|]. rewrite Heq. cbn [calls].
  destruct (corev1.ImagePullSecrets podSpec) as [|first rest] eqn:Hsecrets.
  { destruct (Load_unnamed_secret w (newK8s namespace) container podSpec)
      as (Hcalls & _).
    - unfold no_pull_secret. now rewrite Hsecrets.
    - rewrite Hcalls. intros e []. }
  destruct (String.eqb_spec (corev1.Name first) "") as [Hname|Hname].
  { destruct (Load_unnamed_secret w (newK8s namespace) container podSpec)
      as (Hcalls & _).
    - unfold no_pull_secret. now rewrite Hsecrets.
    - rewrite Hcalls. intros e []. }
  rewrite (Load_named_secret w (newK8s namespace) container podSpec
                             first rest Hsecrets Hname).
  cbn [calls]. intros e [<-|[]]. reflexivity.
Qed.

(** X21: an image without tag is not looked up as [latest]: for a pod
    without a named pull secret and an image string without [':'],
    [GetEntrypointCmd] returns the missing-tag error and makes no call;
    the message names the image as it would have been requested, behind
    [library/] when it holds no ['/']. *)
Theorem GetEntrypointCmd_untagged_image (namespace : string)
        (container : corev1.Container) (podSpec : corev1.PodSpec) :
  no_pull_secret podSpec ->
  ~ occurs ":" (corev1.Image container) ->
  (occurs "/" (corev1.Image container) ->
   GetEntrypointCmd w namespace container podSpec
   = ret (None, None,
          Some ("Cannot find tag for image " ++ corev1.Image container)))
  /\ (~ occurs "/" (corev1.Image container) ->
      GetEntrypointCmd w namespace container podSpec
      = ret (None, None,
             Some ("Cannot find tag for image "
                   ++ "library/" ++ corev1.Image container))).
Proof.
  intros Hno Htag.
  rewrite (GetEntrypointCmd_no_pull_secret namespace container podSpec Hno).
  split; intros Hslash.
  - destruct (Nat.eqb_spec (strings.Count (corev1.Image container) "/") 0)
      as [Hcount|_].
    + apply Count_slash in Hcount. contradiction.
    + exact (GetImageBlob_no_colon w _ _ _ _ Htag).
  - apply Count_slash in Hslash. rewrite Hslash. cbn [Nat.eqb].
    apply GetImageBlob_no_colon.
    intros Hin. apply occurs_append in Hin. destruct Hin as [Hin|Hin].
    + unfold occurs in Hin; simpl in Hin.
      repeat (destruct Hin as [Hin|Hin]; [discriminate Hin|]). exact Hin.
    + exact (Htag Hin).
Qed.

(** X22: with a named first pull secret the first call of
    [GetEntrypointCmd] reads that secret in the namespace given as
    argument, whatever happens afterwards. *)
Theorem GetEntrypointCmd_reads_secret_first (namespace : string)
        (container : corev1.Container) (podSpec : corev1.PodSpec)
        (first : corev1.LocalObjectReference)
        (rest : list corev1.LocalObjectReference) :
  corev1.ImagePullSecrets podSpec = first :: rest ->
  corev1.Name first <> "" ->
  hd_error (calls (GetEntrypointCmd w namespace container podSpec))
  = Some (SecretsGet namespace (corev1.Name first)).
Proof.
  intros Hsecrets Hname. unfold GetEntrypointCmd, bind.
  rewrite (Load_named_secret w (newK8s namespace) container podSpec
                             first rest Hsecrets Hname).
  cbn [calls outcome Namespace newK8s].
  match goal with
  | |- context [match ?o with Returned _ => _ | Panicked _ => _ end] =>
      destruct o
  end; reflexivity.
Qed.

(** X23: [GetEntrypointCmd] panics exactly when [Load] does, with the same
    message. *)
Theorem GetEntrypointCmd_panics_iff (namespace : string)
        (container : corev1.Container) (podSpec : corev1.PodSpec)
        (msg : string) :
  outcome (GetEntrypointCmd w namespace container podSpec) = Panicked msg
  <-> outcome (Load w (newK8s namespace) container podSpec) = Panicked msg.
Proof.
  unfold GetEntrypointCmd, bind.
  destruct (outcome (Load w (newK8s namespace) container podSpec))
    as [[podInfo [err|]]|msg'];
    [split; discriminate | |
     cbn [outcome]; split; intros H; inversion H; reflexivity].
  cbv beta iota zeta; cbn [outcome].
  match goal with
  | |- context [GetImageBlob w ?a ?u ?p ?i] =>
      pose proof (GetImageBlob_all_or_nothing w a u p i) as Hblob;
      set (blob := GetImageBlob w a u p i) in *
  end.
  clearbody blob. destruct Hblob as (r & Hret & _).
  unfold slice, error in *. rewrite Hret. split; discriminate.
Qed.

(** X24: for a private registry with an ASCII name [R] and an image
    [R/rest], where [rest] does not begin with a byte of [R/],
    [GetEntrypointCmd] asks the resolved registry, with the credentials of
    the pull secret, for [rest]. *)
Theorem GetEntrypointCmd_private_registry (namespace : string)
        (container : corev1.Container) (podSpec : corev1.PodSpec)
        (cs : list Event) (k : K8s) (rest : string) :
  Load w (newK8s namespace) container podSpec
  = {| calls := cs; outcome := Returned (k, None) |} ->
  RegistryName k <> "" ->
  strings.isASCII (RegistryName k) = true ->
  Image k = RegistryName k ++ "/" ++ rest ->
  (forall c rest', rest = String c rest' ->
                   ~ occurs c (RegistryName k ++ "/")) ->
  isDockerHub (RegistryAddress k) = false ->
  let blob := GetImageBlob w (RegistryAddress k) (RegistryUsername k)
                           (RegistryPassword k) rest in
  GetEntrypointCmd w namespace container podSpec
  = {| calls := (cs ++ calls blob)%list; outcome := outcome blob |}.
Proof.
  intros HLoad Hname Hascii Himage Hfirst Hhub.
  pose proof (GetEntrypointCmd_after_Load namespace container podSpec cs k HLoad)
    as Hafter.
  cbv zeta in Hafter |- *. rewrite Hafter. clear Hafter.
  destruct (String.eqb_spec (RegistryName k) "") as [|_]; [contradiction|].
  destruct (String.eqb_spec (RegistryAddress k) "") as [Haddr|_].
  { exfalso. apply Hname.
    pose proof (Load_unresolved_address w namespace container podSpec cs k
                                        HLoad Haddr) as Hno.
    destruct (Load_no_pull_secret w (newK8s namespace) container podSpec Hno)
      as (secretName & Hret & _).
    rewrite Hret in HLoad. inversion HLoad; subst. reflexivity. }
  rewrite Hhub, Himage. cbn [andb].
  rewrite (TrimLeft_prefix_stop (strings_trimLeftUnicode w)
                                (RegistryName k) rest Hascii Hfirst).
  reflexivity.
Qed.

End EntrypointExtras.

Lemma GetEntrypointCmd_Load_error_witness :
  GetEntrypointCmd unreadableSecretWorld "default"
                   {| corev1.Image := "nginx:1.19" |} (podWithSecret "regcred")
  = {| calls := [SecretsGet "default" "regcred"];
       outcome :=
         Returned (None, None,
                   Some "cannot read imagePullSecrets: secret not found") |}.
Proof.
  exact (proj1 (GetEntrypointCmd_Load_error unreadableSecretWorld "default"
                  {| corev1.Image := "nginx:1.19" |} (podWithSecret "regcred")
                  (set_ImagePullSecrets
                     (set_Image (newK8s "default") "nginx:1.19") "regcred")
                  "cannot read imagePullSecrets: secret not found" eq_refl)).
Defined.

Lemma GetEntrypointCmd_untagged_image_witness :
  GetEntrypointCmd (sampleWorld "" privateCreds) "default"
                   {| corev1.Image := "nginx" |} podWithoutSecrets
  = ret (None, None, Some "Cannot find tag for image library/nginx").
Proof.
  assert (Hcolon : ~ occurs ":" "nginx").
  { unfold occurs; simpl; intros H.
    repeat (destruct H as [H|H]; [discriminate H|]). exact H. }
  assert (Hslash : ~ occurs "/" "nginx").
  { unfold occurs; simpl; intros H.
    repeat (destruct H as [H|H]; [discriminate H|]). exact H. }
  exact (proj2 (GetEntrypointCmd_untagged_image (sampleWorld "" privateCreds)
                  "default" {| corev1.Image := "nginx" |} podWithoutSecrets
                  I Hcolon) Hslash).
Defined.

Lemma GetEntrypointCmd_reads_secret_first_witness :
  hd_error (calls (GetEntrypointCmd (sampleWorld "" emptyCreds) "team-a"
                     {| corev1.Image := "nginx:1.19" |}
                     (podWithSecret "regcred")))
  = Some (SecretsGet "team-a" "regcred").
Proof.
  refine (GetEntrypointCmd_reads_secret_first (sampleWorld "" emptyCreds)
            "team-a" {| corev1.Image := "nginx:1.19" |}
            (podWithSecret "regcred") {| corev1.Name := "regcred" |} []
            eq_refl _).
  discriminate.
Defined.

Lemma GetEntrypointCmd_private_registry_witness :
  GetEntrypointCmd (sampleWorld "" privateCreds) "default"
                   {| corev1.Image := "registry.example.com/web:1" |}
                   (podWithSecret "regcred")
  = {| calls :=
         [SecretsGet "default" "regcred";
          RegistryNew "https://registry.example.com" "bot" "s3cret";
          ManifestV2 "web" "1"; DownloadBlob "web" "sha256:0"; ReadAll; Close];
       outcome :=
         Returned (Some ["/docker-entrypoint.sh"],
                   Some ["nginx"; "-g"; "daemon off;"], None) |}.
Proof.
  refine (GetEntrypointCmd_private_registry (sampleWorld "" privateCreds)
            "default" {| corev1.Image := "registry.example.com/web:1" |}
            (podWithSecret "regcred") [SecretsGet "default" "regcred"]
            {| Namespace := "default"; ImagePullSecrets := "regcred";
               RegistryAddress := "https://registry.example.com";
               RegistryName := "registry.example.com";
               RegistryUsername := "bot"; RegistryPassword := "s3cret";
               Image := "registry.example.com/web:1" |}
            "web:1" eq_refl _ eq_refl eq_refl _ eq_refl).
  - discriminate.
  - intros c rest' Heq. inversion Heq; subst.
    unfold occurs; simpl. intros H.
    repeat (destruct H as [H|H]; [discriminate H|]). exact H.
Defined.

Lemma GetImageBlob_protocol_witness :
  calls (GetImageBlob
           (registryWorld (Ok tt) (Err "manifest unknown") (BlobStream tt)
                          (Ok []) (Ok sampleImage))
           "https://registry.example.com" "bot" "s3cret" "myapp:1")
  = [RegistryNew "https://registry.example.com" "bot" "s3cret";
     ManifestV2 "myapp" "1"].
Proof.
  exact (proj1 (proj2 (GetImageBlob_protocol
                         (registryWorld (Ok tt) (Err "manifest unknown")
                            (BlobStream tt) (Ok []) (Ok sampleImage))
                         "https://registry.example.com" "bot" "s3cret"
                         "myapp:1" "myapp" "1" eq_refl)
                      tt eq_refl)
               "manifest unknown" eq_refl).
Defined.

(** C3: [GetEntrypointCmd] does not return on every input.  When the pull
    secret decodes to a credentials document without entries, [Load]
    panics after the secret read, and with it [GetEntrypointCmd]: there is
    no result, neither the two sequences nor an error. *)
Theorem GetEntrypointCmd_no_result_on_empty_credentials :
  GetEntrypointCmd (sampleWorld "" emptyCreds) "default"
                   {| corev1.Image := "nginx:1.19" |} (podWithSecret "regcred")
  = {| calls := [SecretsGet "default" "regcred"];
       outcome := Panicked "runtime error: index out of range" |}
  /\ ~ (exists r,
          outcome (GetEntrypointCmd (sampleWorld "" emptyCreds) "default"
                     {| corev1.Image := "nginx:1.19" |}
                     (podWithSecret "regcred"))
          = Returned r
          /\ all_or_nothing r).
Proof.
  split; [reflexivity|].
  intros (r & Hret & _). discriminate Hret.
Qed.
